(** * social-sentiment: the feed annotation pipeline and its two caches

    A shallow embedding of [src/content_script.js] (the script injected in
    the page) and [src/background.js] (the service worker), with the
    properties of the annotation pipeline stated over it.

    Conventions of the embedding.

    - A JavaScript number is a rational ([Q]).  Payload numbers come out of
      [JSON.parse], which yields no NaN; a number that is absent
      ([undefined] coerced by an operator) is [None].  Products and
      comparisons are exact: the rounding of IEEE-754 doubles is not
      modelled.
    - A string is a [string]; one character stands for one code unit.  Case
      mapping and trimming are the ASCII ones.
    - An object of a payload is seen through the two properties the scripts
      read, [label] and [score]; see [JS.value].
    - A DOM node is a tree; a JavaScript reference to a node is the position
      of the node in the tree, and a mutation through the reference rewrites
      the tree at that position.
    - [Map] objects are finite maps ([gmap]); the order of insertion, which
      the scripts never observe, is not kept.
    - Asynchronous code is cut at its suspension points: the part that runs
      when a function is called, and the part that runs when the callback or
      the promise is settled, are separate functions over an explicit state.
    - Time ([Date.now()]) is an integer number of milliseconds, passed in. *)

From Stdlib Require Import ZArith QArith Qround String Ascii List Lia.
From stdpp Require Import base option list strings gmap pretty.

#[local] Set Warnings "-register-all".
#[local] Open Scope string_scope.
#[local] Open Scope list_scope.
#[local] Open Scope Z_scope.

(** ** JavaScript values and the coercions the scripts rely on *)

Module JS.

(** The values a parsed JSON payload is made of.  An object is recorded
    through the two properties the scripts ever read from one: [label], any
    value ([VUndefined] when the property is absent), and [score], [Some q]
    when the property is a number and [None] when it is absent or is not a
    number. *)
Inductive value :=
| VUndefined
| VNull
| VBool (b : bool)
| VNum (n : Q)
| VStr (s : string)
| VArr (items : list value)
| VObj (label : value) (score : option Q).

(** How a statement ends: normally, or by an exception that leaves the
    function; both carry the state reached. *)
Inductive completion (A : Type) :=
| Normal (a : A)
| Throw (a : A).
Arguments Normal {A} a.
Arguments Throw {A} a.

Definition state_of {A} (c : completion A) : A :=
  match c with Normal a | Throw a => a end.

Definition cmap {A B} (f : A -> B) (c : completion A) : completion B :=
  match c with Normal a => Normal (f a) | Throw a => Throw (f a) end.

Definition is_normal {A} (c : completion A) : bool :=
  match c with Normal _ => true | Throw _ => false end.

(** [Array.isArray(v)] *)
Definition isArray (v : value) : bool :=
  match v with VArr _ => true | _ => false end.

(** [v === null || v === undefined]: reading a property of such a value
    raises a TypeError. *)
Definition nullish (v : value) : bool :=
  match v with VUndefined | VNull => true | _ => false end.

(** ToBoolean *)
Definition truthy (v : value) : bool :=
  match v with
  | VUndefined | VNull => false
  | VBool b => b
  | VNum n => negb (Qeq_bool n 0)
  | VStr s => negb (String.eqb s "")
  | VArr _ | VObj _ _ => true
  end.

(** [v.score] and [v.label] for a value that is not nullish: primitives and
    arrays have no such property. *)
Definition get_score (v : value) : option Q :=
  match v with VObj _ s => s | _ => None end.

Definition get_label (v : value) : value :=
  match v with VObj l _ => l | _ => VUndefined end.

(** [typeof v.score === 'number'] *)
Definition has_numeric_score (v : value) : bool :=
  match get_score v with Some _ => true | None => false end.

(** [x > y] on numbers; a comparison with an absent operand is false. *)
Definition Qgtb (x y : Q) : bool := negb (Qle_bool x y).

Definition gt (x y : option Q) : bool :=
  match x, y with
  | Some p, Some q => Qgtb p q
  | _, _ => false
  end.

(** [Number(x) || 0] *)
Definition number_or_zero (x : option Q) : Q :=
  match x with
  | Some q => if Qeq_bool q 0 then 0%Q else q
  | None => 0%Q
  end.

(** [Math.round]: the nearest integer, a half rounded up. *)
Definition Math_round (q : Q) : Z := Qfloor (q + (1 # 2))%Q.

(** Digits of the fractional part [num / den], at most [fuel] of them. *)
Fixpoint frac_digits (fuel : nat) (num den : Z) : string :=
  match fuel with
  | O => ""
  | S fuel' =>
      if (num =? 0)%Z then ""
      else pretty ((num * 10) / den) +:+ frac_digits fuel' ((num * 10) mod den) den
  end.

(** Number to string: an integer prints as its decimal digits, another
    number as its decimal expansion (up to 20 digits after the point; the
    exponent notation of very large and very small numbers is not
    modelled). *)
Definition Number_toString (q : Q) : string :=
  let n := Qnum q in
  let d := Zpos (Qden q) in
  if (n mod d =? 0)%Z then pretty (n / d)
  else
    let a := Z.abs n in
    (if (n <? 0)%Z then "-" else "") +:+ pretty (a / d) +:+ "." +:+
    frac_digits 20 (a mod d) d.

(** [`${n}`] for the result of an arithmetic expression: ["NaN"] when an
    operand was absent. *)
Definition show_int (n : option Z) : string :=
  match n with Some z => pretty z | None => "NaN" end.

(** [Array.prototype.join] *)
Fixpoint join (sep : string) (l : list string) : string :=
  match l with
  | [] => ""
  | [x] => x
  | x :: r => x +:+ sep +:+ join sep r
  end.

(** [String(v)] *)
Fixpoint ToString (v : value) : string :=
  match v with
  | VUndefined => "undefined"
  | VNull => "null"
  | VBool true => "true"
  | VBool false => "false"
  | VNum n => Number_toString n
  | VStr s => s
  | VArr items =>
      join "," (List.map (fun x => if nullish x then "" else ToString x) items)
  | VObj _ _ => "[object Object]"
  end.

Definition lower_ascii (c : ascii) : ascii :=
  let n := nat_of_ascii c in
  if (65 <=? n)%nat && (n <=? 90)%nat then ascii_of_nat (n + 32) else c.

Definition upper_ascii (c : ascii) : ascii :=
  let n := nat_of_ascii c in
  if (97 <=? n)%nat && (n <=? 122)%nat then ascii_of_nat (n - 32) else c.

Fixpoint map_string (f : ascii -> ascii) (s : string) : string :=
  match s with
  | EmptyString => EmptyString
  | String c r => String (f c) (map_string f r)
  end.

Definition toLowerCase : string -> string := map_string lower_ascii.
Definition toUpperCase : string -> string := map_string upper_ascii.

Definition is_space (c : ascii) : bool :=
  let n := nat_of_ascii c in
  (n =? 32)%nat || ((9 <=? n)%nat && (n <=? 13)%nat).

Definition is_digit (c : ascii) : bool :=
  let n := nat_of_ascii c in (48 <=? n)%nat && (n <=? 57)%nat.

Fixpoint existsb_string (f : ascii -> bool) (s : string) : bool :=
  match s with
  | EmptyString => false
  | String c r => f c || existsb_string f r
  end.

Fixpoint trimStart (s : string) : string :=
  match s with
  | String c r => if is_space c then trimStart r else s
  | EmptyString => EmptyString
  end.

Fixpoint trimEnd (s : string) : string :=
  match s with
  | EmptyString => EmptyString
  | String c r =>
      match trimEnd r with
      | EmptyString => if is_space c then EmptyString else String c EmptyString
      | r' => String c r'
      end
  end.

(** [s.trim()] *)
Definition trim (s : string) : string := trimEnd (trimStart s).

(** [s.slice(0, n)] *)
Definition slice0 (n : nat) (s : string) : string := substring 0 n s.

(** [s.includes(sub)] *)
Fixpoint includes (sub s : string) : bool :=
  String.prefix sub s ||
  match s with
  | EmptyString => false
  | String _ r => includes sub r
  end.

(** [arr.reduce(f, init)] for a callback that may throw: [None] when it
    does. *)
Fixpoint reduce {A B} (f : A -> B -> option A) (l : list B) (acc : A) : option A :=
  match l with
  | [] => Some acc
  | b :: r => match f acc b with Some acc' => reduce f r acc' | None => None end
  end.

(** [arr.flat()]: the elements that are arrays are replaced by their
    elements, one level deep. *)
Fixpoint flat (l : list value) : list value :=
  match l with
  | [] => []
  | VArr xs :: r => xs ++ flat r
  | x :: r => x :: flat r
  end.

(** [arr.sort(cmp)] for a consistent comparator: the stable sort, [a] staying
    before [b] unless [cmp a b > 0]. *)
Fixpoint sort_insert {A} (cmp : A -> A -> Q) (x : A) (l : list A) : list A :=
  match l with
  | [] => [x]
  | y :: r => if Qgtb (cmp x y) 0 then y :: sort_insert cmp x r else x :: y :: r
  end.

Fixpoint sort {A} (cmp : A -> A -> Q) (l : list A) : list A :=
  match l with
  | [] => []
  | x :: r => sort_insert cmp x (sort cmp r)
  end.

End JS.

(** ** The document tree *)

Module Dom.
Import JS.

(** A text node, or an element with its tag name (lower case), the token
    set of its [class] attribute in order, its other attributes, the
    declarations of its inline style, and its child nodes. *)
Inductive node :=
| Text (data : string)
| Element (tagName : string) (classList : list string)
    (attributes : gmap string string) (style : gmap string string)
    (children : list node).

Definition classList_of (n : node) : list string :=
  match n with Element _ c _ _ _ => c | Text _ => [] end.

Definition children_of (n : node) : list node :=
  match n with Element _ _ _ _ ch => ch | Text _ => [] end.

(** [el.getAttribute(name)]: [None] is [null]. *)
Definition getAttribute (name : string) (n : node) : option string :=
  match n with Element _ _ a _ _ => a !! name | Text _ => None end.

Definition setAttribute (name v : string) (n : node) : node :=
  match n with
  | Element t c a s ch => Element t c (<[name := v]> a) s ch
  | Text _ => n
  end.

(** [el.style.prop = v] *)
Definition setStyle (prop v : string) (n : node) : node :=
  match n with
  | Element t c a s ch => Element t c a (<[prop := v]> s) ch
  | Text _ => n
  end.

Definition contains (c : string) (n : node) : bool :=
  bool_decide (c ∈ classList_of n).

(** A class token must be non-empty and free of ASCII whitespace, else
    [classList.add] throws. *)
Definition is_ascii_whitespace (c : ascii) : bool :=
  let n := nat_of_ascii c in
  (n =? 9)%nat || (n =? 10)%nat || (n =? 12)%nat || (n =? 13)%nat || (n =? 32)%nat.

Definition valid_token (t : string) : bool :=
  negb (String.eqb t "") && negb (existsb_string is_ascii_whitespace t).

Definition add_token (cl : list string) (t : string) : list string :=
  if bool_decide (t ∈ cl) then cl else cl ++ [t].

Definition remove_tokens (ts cl : list string) : list string :=
  List.filter (fun c => negb (bool_decide (c ∈ ts))) cl.

(** [el.classList.add(t1, ..., tn)] with valid tokens *)
Definition classList_add (ts : list string) (n : node) : node :=
  match n with
  | Element t c a s ch => Element t (fold_left add_token ts c) a s ch
  | Text _ => n
  end.

(** [el.classList.remove(t1, ..., tn)] *)
Definition classList_remove (ts : list string) (n : node) : node :=
  match n with
  | Element t c a s ch => Element t (remove_tokens ts c) a s ch
  | Text _ => n
  end.

Definition appendChild (child : node) (n : node) : node :=
  match n with
  | Element t c a s ch => Element t c a s (ch ++ [child])
  | Text _ => n
  end.

Definition set_children (ch : list node) (n : node) : node :=
  match n with
  | Element t c a s _ => Element t c a s ch
  | Text _ => n
  end.

(** [document.createElement(tag)] *)
Definition createElement (tag : string) : node := Element tag [] ∅ ∅ [].

Definition LF : ascii := ascii_of_nat 10.
Definition CR : ascii := ascii_of_nat 13.

Definition flush (cur : string) : list node :=
  if String.eqb cur "" then [] else [Text cur].

(** The nodes the [innerText] setter builds: a text node for every run of
    characters without a line break, a [br] element for every line
    break. *)
Fixpoint text_fragment (cur s : string) : list node :=
  match s with
  | EmptyString => flush cur
  | String c r =>
      if Ascii.eqb c LF then flush cur ++ createElement "br" :: text_fragment "" r
      else if Ascii.eqb c CR then
        match r with
        | String c' r' =>
            if Ascii.eqb c' LF
            then flush cur ++ createElement "br" :: text_fragment "" r'
            else flush cur ++ createElement "br" :: text_fragment "" r
        | EmptyString => flush cur ++ [createElement "br"]
        end
      else text_fragment (cur +:+ String c EmptyString) r
  end.

(** [el.innerText = s] *)
Definition set_innerText (s : string) (n : node) : node :=
  set_children (text_fragment "" s) n.

(** The first result of [f] along a list. *)
Fixpoint first_some {A B} (f : A -> option B) (l : list A) : option B :=
  match l with
  | [] => None
  | x :: r => match f x with Some y => Some y | None => first_some f r end
  end.

(** Rewrites the first element of the list on which [f] applies. *)
Fixpoint update_first {A} (f : A -> option (completion A)) (l : list A)
  : option (completion (list A)) :=
  match l with
  | [] => None
  | x :: r =>
      match f x with
      | Some c => Some (cmap (fun x' => x' :: r) c)
      | None => option_map (cmap (cons x)) (update_first f r)
      end
  end.

(** Removes from the list, or from below one of its elements, the first
    node on which [f] applies. *)
Fixpoint drop_first {A} (hit : A -> bool) (f : A -> option A) (l : list A)
  : option (list A) :=
  match l with
  | [] => None
  | x :: r =>
      if hit x then Some r
      else match f x with
           | Some x' => Some (x' :: r)
           | None => option_map (cons x) (drop_first hit f r)
           end
  end.

Section Selector.
(** A selector, as the set of elements it matches. *)
Variable sel : node -> bool.

(** The first node in document order, among [n] and its descendants, that
    the selector matches. *)
Fixpoint find_first (n : node) : option node :=
  match n with
  | Text _ => None
  | Element _ _ _ _ ch =>
      if sel n then Some n else first_some find_first ch
  end.

(** [root.querySelector(sel)]: the descendants of [root] only. *)
Definition querySelector (root : node) : option node :=
  first_some find_first (children_of root).

Fixpoint find_all (n : node) : list node :=
  match n with
  | Text _ => []
  | Element _ _ _ _ ch =>
      (if sel n then [n] else []) ++ concat (List.map find_all ch)
  end.

(** [root.querySelectorAll(sel)] *)
Definition querySelectorAll (root : node) : list node :=
  concat (List.map find_all (children_of root)).

(** The tree after the statements [g] have run on the node that
    [find_first] returns; [None] when there is no such node. *)
Fixpoint modify_first (g : node -> completion node) (n : node)
  : option (completion node) :=
  match n with
  | Text _ => None
  | Element t c a s ch =>
      if sel n then Some (g n)
      else option_map (cmap (Element t c a s)) (update_first (modify_first g) ch)
  end.

(** The statements [g] run on [root.querySelector(sel)]. *)
Definition with_selected (g : node -> completion node) (root : node)
  : option (completion node) :=
  match root with
  | Text _ => None
  | Element t c a s ch =>
      option_map (cmap (Element t c a s)) (update_first (modify_first g) ch)
  end.

(** The tree without the node that [find_first] returns, for a node below
    [n]. *)
Fixpoint remove_below (n : node) : option node :=
  match n with
  | Text _ => None
  | Element t c a s ch =>
      option_map (Element t c a s) (drop_first sel remove_below ch)
  end.

(** [root.querySelector(sel).remove()], when the query has a result. *)
Definition remove_selected (root : node) : node :=
  match remove_below root with Some root' => root' | None => root end.
End Selector.

(** The selectors of the scripts. *)
Definition by_class (c : string) (n : node) : bool :=
  match n with Element _ _ _ _ _ => contains c n | Text _ => false end.

Definition by_attribute (name v : string) (n : node) : bool :=
  bool_decide (getAttribute name n = Some v).

Definition by_tag (tags : list string) (n : node) : bool :=
  match n with
  | Element t _ _ _ _ => bool_decide (t ∈ tags)
  | Text _ => false
  end.

(** [a[href*="/status/"]] *)
Definition status_anchor (n : node) : bool :=
  by_tag ["a"] n &&
  match getAttribute "href" n with
  | Some h => includes "/status/" h
  | None => false
  end.

End Dom.

(** ** The messages between the page script and the service worker *)

Module Channel.
Import JS.

(** The request [{ type, text, postId }]; an absent or [null] field is
    [None]. *)
Record message := {
  msg_type : string;
  msg_text : option string;
  msg_postId : option string
}.

(** The response object: [{ error }], [{ result }] or
    [{ result, cached: true }]; an absent [error] is [None], an absent
    [result] is [VUndefined]. *)
Record response := {
  error : option string;
  result : value;
  cached : bool
}.

(** Truth value of a string that may be absent. *)
Definition given (s : option string) : bool :=
  match s with Some t => negb (String.eqb t "") | None => false end.

End Channel.

(** ** content_script.js *)

Module Content.
Import JS Dom Channel.

Definition SENTIMENT_MARKER_ATTR : string := "data-ps-sentiment".
Definition SENTIMENT_UI_CLASS : string := "ps-sentiment-ui".

(** The value of [sentimentCache]: [{ labelScores }]. *)
Record cacheEntry := { labelScores : value }.

(** What the script can change: the post element it works on, its cache,
    and the requests it has handed to [chrome.runtime.sendMessage]. *)
Record page := {
  articleEl : node;
  sentimentCache : gmap string cacheEntry;
  sent : list message
}.

Definition cacheKeyFor (postId : option string) (text : string) : string :=
  if given postId then "id:" +:+ default "" postId
  else "text:" +:+ slice0 200 text.

Definition saveToCache (postId : option string) (text : string) (ls : value)
  (cache : gmap string cacheEntry) : gmap string cacheEntry :=
  <[cacheKeyFor postId text := {| labelScores := ls |}]> cache.

Definition getFromCache (postId : option string) (text : string)
  (cache : gmap string cacheEntry) : option cacheEntry :=
  cache !! cacheKeyFor postId text.

(** The accumulator the reductions start from: [{ score: -1 }]. *)
Definition sentinel : value := VObj VUndefined (Some (-1)%Q).

(** The callback [(a, b) => (b.score > a.score ? b : a)]; reading [b.score]
    throws when [b] is [null] or [undefined]. *)
Definition higher (a b : value) : option value :=
  if nullish b then None
  else Some (if gt (get_score b) (get_score a) then b else a).

(** [labelScores.reduce((a, b) => ..., { score: -1 })] *)
Definition best_of (items : list value) : option value :=
  reduce higher items sentinel.

(** [(best && best.label) ? String(best.label).toLowerCase() : 'neutral'] *)
Definition label_of (best : value) : string :=
  if truthy best && truthy (get_label best)
  then toLowerCase (ToString (get_label best))
  else "neutral".

(** The object literals [classMap] and [displayMap], read at a key: [None]
    is [undefined].  The properties an object literal inherits
    ([constructor], [toString], ...) are not modelled as keys. *)
Definition classMap (label : string) : option string :=
  if String.eqb label "positive" then Some "ps-sentiment-positive"
  else if String.eqb label "neutral" then Some "ps-sentiment-neutral"
  else if String.eqb label "negative" then Some "ps-sentiment-negative"
  else None.

Definition displayMap (label : string) : option string :=
  if String.eqb label "negative" then Some "NEGATIVE"
  else if String.eqb label "neutral" then Some "NEUTRAL"
  else if String.eqb label "positive" then Some "POSITIVE"
  else None.

(** [`${displayMap[l]}`] *)
Definition display (label : string) : string :=
  default "undefined" (displayMap label).

(** The object [scoreMap] after the [forEach]. *)
Definition scoreMap_init : gmap string Q :=
  <["positive" := 0%Q]> (<["neutral" := 0%Q]> (<["negative" := 0%Q]> ∅)).

Definition record_score (m : gmap string Q) (s : value) : gmap string Q :=
  if truthy s && truthy (get_label s)
  then <[toLowerCase (ToString (get_label s)) := number_or_zero (get_score s)]> m
  else m.

Definition scoreMap_of (items : list value) : gmap string Q :=
  fold_left record_score items scoreMap_init.

(** [Math.round((scoreMap[l] || 0) * 100)] *)
Definition pct_of (m : gmap string Q) (l : string) : Z :=
  Math_round (number_or_zero (m !! l) * 100)%Q.

Definition allLabels : list string := ["negative"; "neutral"; "positive"].

(** The labels other than the best one, by descending score. *)
Definition sortedOtherLabels (m : gmap string Q) (bestLabel : string)
  : list string :=
  let otherLabels :=
    List.filter (fun l => negb (String.eqb l bestLabel)) allLabels in
  List.map fst
    (sort (fun a b => (snd b - snd a)%Q)
       (List.map (fun l => (l, number_or_zero (m !! l))) otherLabels)).

Definition newline : string := String LF EmptyString.

(** The bullet of the summary line, U+2022, as its UTF-8 bytes. *)
Definition bullet : string :=
  String (ascii_of_nat 226) (String (ascii_of_nat 128)
    (String (ascii_of_nat 162) EmptyString)).

Definition otherStr (m : gmap string Q) (bestLabel : string) : string :=
  join (" " +:+ bullet +:+ " ")
    (List.map (fun l => display l +:+ " " +:+ pretty (pct_of m l) +:+ "%")
       (sortedOtherLabels m bestLabel)).

(** The text assigned to [summary.innerText]. *)
Definition summaryText (m : gmap string Q) (bestLabel : string)
  (bestPct : option Z) : string :=
  display bestLabel +:+ " " +:+ show_int bestPct +:+ "%" +:+ newline +:+
  otherStr m bestLabel.

(** The text assigned to the [title] attribute of the summary. *)
Definition summaryTitle (m : gmap string Q) (bestLabel : string)
  (bestPct : option Z) : string :=
  display bestLabel +:+ " " +:+ show_int bestPct +:+ "%" +:+ newline +:+
  "NEGATIVE: " +:+ pretty (pct_of m "negative") +:+ "%" +:+ newline +:+
  "NEUTRAL: " +:+ pretty (pct_of m "neutral") +:+ "%" +:+ newline +:+
  "POSITIVE: " +:+ pretty (pct_of m "positive") +:+ "%".

Definition sentimentClasses : list string :=
  ["ps-sentiment-positive"; "ps-sentiment-neutral"; "ps-sentiment-negative"].

Definition is_summary : node -> bool := by_class "ps-sentiment-summary".

(** A summary block as the script creates it. *)
Definition newSummary : node :=
  Element "div" ["ps-sentiment-summary"] ∅ ∅ [].

(** Lines 68 to 85, on the summary block. *)
Definition paintSummary (bestLabel text title : string) (summary : node)
  : completion node :=
  let s1 := classList_remove sentimentClasses summary in
  let token := "ps-sentiment-" +:+ bestLabel in
  if valid_token token then
    let s2 := classList_add [token] s1 in
    let s3 := setAttribute "data-label" bestLabel s2 in
    let s4 := set_innerText text s3 in
    Normal (setAttribute "title" title s4)
  else Throw s1.

Definition applySentimentSummary (articleEl : node) (labelScores : value)
  : completion node :=
  match labelScores with
  | VArr ((_ :: _) as items) =>
      let el1 := classList_add ["ps-sentiment-container"] articleEl in
      let scoreMap := scoreMap_of items in
      match best_of items with
      | None => Throw el1
      | Some best =>
          let bestLabel := label_of best in
          let bestPct :=
            option_map (fun q => Math_round (q * 100)%Q) (get_score best) in
          let paint :=
            paintSummary bestLabel (summaryText scoreMap bestLabel bestPct)
              (summaryTitle scoreMap bestLabel bestPct) in
          match with_selected is_summary paint el1 with
          | Some c => c
          | None => cmap (fun summary => appendChild summary el1) (paint newSummary)
          end
      end
  | _ => Normal articleEl
  end.

Definition applySentimentToElement (articleEl : node) (labelScores : value)
  : completion node :=
  match labelScores with
  | VArr ((_ :: _) as items) =>
      match best_of items with
      | None => Throw articleEl
      | Some best =>
          let label := label_of best in
          let sentimentClass := default "ps-sentiment-neutral" (classMap label) in
          let el1 :=
            classList_remove (sentimentClasses ++ ["ps-sentiment-border"]) articleEl in
          let el2 :=
            classList_add
              ["ps-sentiment-container"; "ps-sentiment-border"; sentimentClass] el1 in
          let el3 := setAttribute "data-ps-sentiment-label" label el2 in
          applySentimentSummary el3 labelScores
      end
  | _ => Normal articleEl
  end.

(** Two readings of [applySentimentSummary] used by the proofs. *)

(** The summary block among the children of the post: the first one in
    document order is repainted, else a new one is appended. *)
Definition on_children (paint : node -> completion node) (ch : list node)
  : completion (list node) :=
  match update_first (modify_first is_summary paint) ch with
  | Some cc => cc
  | None => cmap (fun x => ch ++ [x]) (paint newSummary)
  end.

(** The statements that paint the summary for the list [items] whose best
    item is [best]. *)
Definition painter (items : list value) (best : value) : node -> completion node :=
  let scoreMap := scoreMap_of items in
  let bestLabel := label_of best in
  let bestPct := option_map (fun q => Math_round (q * 100)%Q) (get_score best) in
  paintSummary bestLabel (summaryText scoreMap bestLabel bestPct)
    (summaryTitle scoreMap bestLabel bestPct).

(** [x.toFixed(0)] *)
Definition toFixed0 (x : Q) : string :=
  if Qgtb 0 x then "-" +:+ pretty (Qfloor (- x + (1 # 2))%Q)
  else pretty (Qfloor (x + (1 # 2))%Q).

Definition createSentimentElement (label : string) (score : Q) : node :=
  let el := Element "div" [SENTIMENT_UI_CLASS] ∅ ∅ [] in
  let scorePct := toFixed0 (score * 100)%Q in
  let displayLabel :=
    match displayMap (toLowerCase label) with
    | Some d => d
    | None => toUpperCase label
    end in
  let el := setAttribute "title" (displayLabel +:+ " " +:+ scorePct +:+ "%") el in
  let el := set_innerText (displayLabel +:+ " " +:+ scorePct +:+ "%") el in
  let el := setAttribute "data-label" label el in
  classList_add ["ps-inline"] el.

Fixpoint take_digits (s : string) : string :=
  match s with
  | String c r => if is_digit c then String c (take_digits r) else EmptyString
  | EmptyString => EmptyString
  end.

(** [s] without its prefix [p], when it starts with [p]. *)
Fixpoint strip_prefix (p s : string) : option string :=
  match p with
  | EmptyString => Some s
  | String c p' =>
      match s with
      | String d s' => if Ascii.eqb c d then strip_prefix p' s' else None
      | EmptyString => None
      end
  end.

(** A match of [/status\/(\d+)/] at the start of [s]: the first capture
    group. *)
Definition status_here (s : string) : option string :=
  match strip_prefix "status/" s with
  | Some after =>
      if String.eqb (take_digits after) "" then None
      else Some (take_digits after)
  | None => None
  end.

(** [href.match(/status\/(\d+)/)]: the first capture group of the leftmost
    match. *)
Fixpoint match_status (s : string) : option string :=
  match status_here s with
  | Some id => Some id
  | None =>
      match s with
      | EmptyString => None
      | String _ r => match_status r
      end
  end.

Definition getPostId (articleEl : node) : option string :=
  let fallback :=
    if given (getAttribute "data-testid" articleEl)
    then getAttribute "data-testid" articleEl else None in
  match querySelector status_anchor articleEl with
  | Some anchor =>
      match match_status (default "" (getAttribute "href" anchor)) with
      | Some id => Some id
      | None => fallback
      end
  | None => fallback
  end.

Definition markerOf (pg : page) : option string :=
  getAttribute SENTIMENT_MARKER_ATTR (articleEl pg).

Definition setMarker (v : string) (pg : page) : page :=
  {| articleEl := setAttribute SENTIMENT_MARKER_ATTR v (articleEl pg);
     sentimentCache := sentimentCache pg;
     sent := sent pg |}.

Definition setArticle (el : node) (pg : page) : page :=
  {| articleEl := el; sentimentCache := sentimentCache pg; sent := sent pg |}.

(** [chrome.runtime.sendMessage(m, callback)]: the request leaves; the
    callback runs later, see [onResponse]. *)
Definition sendMessage (m : message) (pg : page) : page :=
  {| articleEl := articleEl pg;
     sentimentCache := sentimentCache pg;
     sent := sent pg ++ [m] |}.

(** [analyzeAndShow], up to the return of [sendMessage]. *)
Definition analyzeAndShow (text : string) (postId : option string) (pg : page)
  : page :=
  if bool_decide (markerOf pg = Some "pending")
     || bool_decide (markerOf pg = Some "done")
  then pg
  else
    let pg1 := setMarker "pending" pg in
    sendMessage
      {| msg_type := "analyze"; msg_text := Some text; msg_postId := postId |}
      pg1.

(** The error marker of lines 155 to 158 and 163 to 166. *)
Definition showError (pg : page) : page :=
  let uiErr := createSentimentElement "ERR" 0 in
  let uiErr := setStyle "background" "#777" uiErr in
  setMarker "done" (setArticle (appendChild uiErr (articleEl pg)) pg).

(** Lines 173 to 190: the list of scores read from the payload, [None] when
    the payload is not a non-empty array. *)
Definition normalize (result : value) : option (list value) :=
  match result with
  | VArr ((first :: _) as items) =>
      let labelScores := if isArray first then flat items else items in
      Some (List.filter (fun item => truthy item && has_numeric_score item)
              labelScores)
  | _ => None
  end.

(** The callback of [analyzeAndShow], run when the response [resp] of the
    request for [text] and [postId] arrives ([None]: no response). *)
Definition onResponse (text : string) (postId : option string)
  (resp : option response) (pg : page) : completion page :=
  match resp with
  | None => Normal (showError pg)
  | Some resp =>
      if given (error resp) then Normal (showError pg)
      else
        match normalize (result resp) with
        | None => Normal (setMarker "done" pg)
        | Some [] => Normal (setMarker "done" pg)
        | Some labelScores =>
            match best_of labelScores with
            | None => Throw pg
            | Some best =>
                let pg1 :=
                  {| articleEl := articleEl pg;
                     sentimentCache :=
                       saveToCache postId text (VArr labelScores) (sentimentCache pg);
                     sent := sent pg |} in
                let el1 :=
                  remove_selected (by_class SENTIMENT_UI_CLASS) (articleEl pg1) in
                match applySentimentToElement el1 (VArr labelScores) with
                | Normal el2 => Normal (setMarker "done" (setArticle el2 pg1))
                | Throw el2 => Throw (setArticle el2 pg1)
                end
            end
        end
  end.

Section Rendering.
(** The [innerText] getter depends on the layout the browser computes; it
    is taken as given. *)
Variable innerText : node -> string.

Definition extractTextFromPost (articleEl : node) : string :=
  match querySelector (by_attribute "data-testid" "tweetText") articleEl with
  | Some textEl => trim (innerText textEl)
  | None =>
      trim (join newline
              (List.filter (fun t => negb (String.eqb t ""))
                 (List.map innerText
                    (querySelectorAll (by_tag ["div"; "span"]) articleEl))))
  end.

Definition processPost (pg : page) : completion page :=
  let marker := markerOf pg in
  let text := extractTextFromPost (articleEl pg) in
  if String.eqb text "" then Normal pg
  else
    let postId := getPostId (articleEl pg) in
    match getFromCache postId text (sentimentCache pg) with
    | Some cached =>
        if truthy (labelScores cached) then
          match applySentimentToElement (articleEl pg) (labelScores cached) with
          | Normal el => Normal (setMarker "done" (setArticle el pg))
          | Throw el => Throw (setArticle el pg)
          end
        else if bool_decide (marker = Some "done") then Normal pg
        else Normal (analyzeAndShow text postId pg)
    | None =>
        if bool_decide (marker = Some "done") then Normal pg
        else Normal (analyzeAndShow text postId pg)
    end.

End Rendering.

(** What happens to a post during a session: a scan pass reaches it
    ([scanAndProcessAll] calls [processPost] on it), or the response to a
    request issued for it arrives. *)
Inductive event :=
| Scanned
| Answered (text : string) (postId : option string) (resp : option response).

Definition step (innerText : node -> string) (pg : page) (e : event) : page :=
  match e with
  | Scanned => state_of (processPost innerText pg)
  | Answered text postId resp => state_of (onResponse text postId resp pg)
  end.

Definition run (innerText : node -> string) (es : list event) (pg : page)
  : page :=
  fold_left (step innerText) es pg.

(** A stand-in for the rendering of a node: the text below it, a [br]
    element read as a line break. *)
Fixpoint plainText (n : node) : string :=
  match n with
  | Text s => s
  | Element t _ _ _ ch =>
      if String.eqb t "br" then newline
      else fold_right append "" (List.map plainText ch)
  end.

End Content.

(** ** background.js *)

Module Background.
Import JS Channel.

Definition CACHE_TTL_MS : Z := 1000 * 60 * 2.

(** The value of [cache]: [{ ts, result }]. *)
Record entry := { ts : Z; result : value }.

(** What the listener does before it returns. *)
Inductive reaction :=
| Ignored
| Responded (r : response)
| Fetching (key : string) (now : Z) (text : string).

Definition errorResponse (e : string) : response :=
  {| error := Some e; Channel.result := VUndefined; cached := false |}.

(** [`${postId || ''}:${text.slice(0, 200)}`] *)
Definition keyFor (postId : option string) (text : string) : string :=
  (if given postId then default "" postId else "") +:+ ":" +:+ slice0 200 text.

(** The cache as the listener reads it at time [now]: the entry under
    [key], unless it is [CACHE_TTL_MS] old or older. *)
Definition fresh (key : string) (now : Z) (cache : gmap string entry)
  : option entry :=
  match cache !! key with
  | Some c => if (now - ts c <? CACHE_TTL_MS)%Z then Some c else None
  | None => None
  end.

(** The listener, called with [message] at time [now]. *)
Definition onMessage (message : option message) (now : Z)
  (cache : gmap string entry) : reaction :=
  match message with
  | None => Ignored
  | Some m =>
      if negb (String.eqb (msg_type m) "analyze") then Ignored
      else if negb (given (msg_text m)) then
        Responded (errorResponse "No text provided")
      else
        let text := default "" (msg_text m) in
        let key := keyFor (msg_postId m) text in
        match fresh key now cache with
        | Some c =>
            Responded {| error := None; Channel.result := result c; cached := true |}
        | None => Fetching key now text
        end
  end.

(** The body of a response, read as JSON. *)
Inductive parsed :=
| Json (v : value)
| SyntaxError (msg : string).

(** How the [fetch] ends: the promise is rejected with a TypeError, or a
    response arrives. *)
Inductive fetchOutcome :=
| NetworkFailure (msg : string)
| HttpResponse (status : Z) (body : string) (json : parsed).

(** [res.ok] *)
Definition ok (status : Z) : bool :=
  (200 <=? status)%Z && (status <=? 299)%Z.

(** [String(err)] for an error object *)
Definition error_toString (name msg : string) : string :=
  if String.eqb msg "" then name else name +:+ ": " +:+ msg.

(** The [then] and [catch] callbacks of the request issued at time [now]
    for [key], run on the cache as it is when the request settles. *)
Definition onSettled (key : string) (now : Z) (o : fetchOutcome)
  (cache : gmap string entry) : gmap string entry * response :=
  match o with
  | NetworkFailure msg => (cache, errorResponse (error_toString "TypeError" msg))
  | HttpResponse status body json =>
      if negb (ok status) then
        (cache,
         errorResponse
           (error_toString "Error" ("HTTP " +:+ pretty status +:+ ": " +:+ body)))
      else
        match json with
        | Json v =>
            (<[key := {| ts := now; result := v |}]> cache,
             {| error := None; Channel.result := v; cached := false |})
        | SyntaxError msg =>
            (cache, errorResponse (error_toString "SyntaxError" msg))
        end
  end.

End Background.

(** ** Sample data *)

Module Examples.
Import JS Dom Channel Content.

(** A post with a permalink and a text container. *)
Definition post : node :=
  Element "article" [] {["role" := "article"]} ∅
    [Element "a" [] {["href" := "/someone/status/1234567"]} ∅ [];
     Element "div" [] {["data-testid" := "tweetText"]} ∅ [Text "I love this!"]].

Definition fresh_page : page :=
  {| articleEl := post; sentimentCache := ∅; sent := [] |}.

Definition item (l : string) (q : Q) : value := VObj (VStr l) (Some q).

Definition scores : value :=
  VArr [item "positive" (95 # 100); item "neutral" (3 # 100);
        item "negative" (2 # 100)].

Definition request : message :=
  {| msg_type := "analyze"; msg_text := Some "I love this!";
     msg_postId := Some "1234567" |}.

Definition answer (v : value) : response :=
  {| error := None; result := v; cached := false |}.

End Examples.

(** ** Vocabulary of the specification *)

Module Spec.
Import JS.

(** An item of a score list: an object with a numeric score. *)
Definition is_score (v : value) : bool := truthy v && has_numeric_score v.

(** A non-empty array of scores. *)
Definition nonempty_score_array (v : value) : bool :=
  match v with
  | VArr (x :: l) => forallb is_score (x :: l)
  | _ => false
  end.

(** The score of [v] is a number above [q], below [q], at most [q]. *)
Definition above (q : Q) (v : value) : Prop :=
  exists p, get_score v = Some p /\ (q < p)%Q.

Definition below (q : Q) (v : value) : Prop :=
  exists p, get_score v = Some p /\ (p < q)%Q.

Definition at_most (q : Q) (v : value) : Prop :=
  exists p, get_score v = Some p /\ (p <= q)%Q.

(** A classification attempt that fails: the transport fails, or the status
    of the response is not a 2xx one. *)
Definition failed (o : Background.fetchOutcome) : bool :=
  match o with
  | Background.NetworkFailure _ => true
  | Background.HttpResponse status _ _ => negb (Background.ok status)
  end.

(** A post whose processing state is pending or done. *)
Definition marked (pg : Content.page) : Prop :=
  Content.markerOf pg = Some "pending" \/ Content.markerOf pg = Some "done".



End Spec.

(** ** content_script.js: the stylesheet *)

Module Stylesheet.
Import JS Dom.

(** [document.getElementById(id)] on the document whose root element is
    [html]: the first element in document order with that [id]. *)
Definition getElementById (id : string) (html : node) : option node :=
  find_first (by_attribute "id" id) html.

(** The [link] element that [injectCss] builds; [url] is what
    [chrome.runtime.getURL('content_style.css')] returns. *)
Definition cssLink (url : string) : node :=
  let link := createElement "link" in
  let link := setAttribute "id" "ps-extension-css" link in
  let link := setAttribute "rel" "stylesheet" link in
  setAttribute "href" url link.

(** [document.head.appendChild(child)]: [document.head] is the first child
    of the root element that is a [head] element. *)
Definition appendToHead (child : node) (n : node) : option (completion node) :=
  if by_tag ["head"] n then Some (Normal (appendChild child n)) else None.

(** [injectCss()]; reading [document.head.appendChild] throws when the
    document has no head. *)
Definition injectCss (url : string) (html : node) : completion node :=
  match getElementById "ps-extension-css" html with
  | Some _ => Normal html
  | None =>
      match html with
      | Element t c a s ch =>
          match update_first (appendToHead (cssLink url)) ch with
          | Some cc => cmap (Element t c a s) cc
          | None => Throw html
          end
      | Text _ => Throw html
      end
  end.

End Stylesheet.

(** ** Further vocabulary *)

Module Notions.
Import JS Dom.

(** A string without a colon. *)
Fixpoint colon_free (s : string) : bool :=
  match s with
  | EmptyString => true
  | String c r => negb (Ascii.eqb c ":"%char) && colon_free r
  end.

(** A string of white space only. *)
Fixpoint all_space (s : string) : bool :=
  match s with
  | EmptyString => true
  | String c r => is_space c && all_space r
  end.

(** An item whose label gives a class token that [classList.add] accepts. *)
Definition clean_label (v : value) : bool :=
  valid_token ("ps-sentiment-" +:+ Content.label_of v).

(** The lower-case property names that the object literals [classMap] and
    [displayMap] inherit from [Object.prototype]: read at one of them, the
    literal gives the inherited value, not [undefined]. *)
Definition inherited : list string := ["constructor"; "__proto__"].

(** An item whose label is none of them, so that [classMap] and
    [displayMap] are read at it as [Content.classMap] and
    [Content.displayMap] say. *)
Definition own_label (v : value) : bool :=
  bool_decide (Content.label_of v ∉ inherited).

(** A response whose scored items all have such labels. *)
Definition clean_response (resp : option Channel.response) : bool :=
  match resp with
  | Some r =>
      match Content.normalize (Channel.result r) with
      | Some ls => forallb (fun v => clean_label v && own_label v) ls
      | None => true
      end
  | None => true
  end.

(** A value the render functions can work on: a non-empty array of scored
    items, on which the reduction does not throw. *)
Definition renderable (v : value) : Prop :=
  Spec.nonempty_score_array v = true /\
  exists x l best, v = VArr (x :: l) /\ Content.best_of (x :: l) = Some best.

(** The elements that [getElementById('ps-extension-css')] looks for. *)
Definition css_id : Dom.node -> bool := Dom.by_attribute "id" "ps-extension-css".

(** A score map whose values are all from 0 to 1. *)
Definition unit_scores (m : gmap string Q) : Prop :=
  map_Forall (fun _ q => (0 <= q)%Q /\ (q <= 1)%Q) m.

(** A score that is a probability: a number from 0 to 1. *)
Definition probability (v : JS.value) : Prop :=
  exists q, JS.get_score v = Some q /\ (0 <= q)%Q /\ (q <= 1)%Q.

End Notions.

(** ** Properties *)

Import JS Dom Channel.

(** Closes a decidable goal about concrete data by evaluation. *)
Ltac decided :=
  match goal with
  | |- ?P => apply (bool_decide_unpack P); vm_compute; exact I
  end.

(** *** Numbers *)

Lemma Qgtb_true (x y : Q) : Qgtb x y = true <-> (y < x)%Q.
Proof.
  unfold Qgtb. rewrite negb_true_iff. split.
  - intros H. apply Qnot_le_lt. intros Hle.
    apply Qle_bool_iff in Hle. congruence.
  - intros H. destruct (Qle_bool x y) eqn:E; [|reflexivity].
    apply Qle_bool_iff in E. exfalso. apply (Qlt_not_le _ _ H E).
Qed.

Lemma Qgtb_false (x y : Q) : Qgtb x y = false <-> (x <= y)%Q.
Proof.
  unfold Qgtb. rewrite negb_false_iff. apply Qle_bool_iff.
Qed.

(** *** The service worker *)

(** C5. An [analyze] request whose text is absent or empty is answered at
    once with [{ error: "No text provided" }]: the listener neither reads the
    cache nor starts a fetch. *)
Theorem no_text_is_rejected (m : message) (now : Z)
  (cache : gmap string Background.entry) :
  msg_type m = "analyze" ->
  msg_text m = None \/ msg_text m = Some "" ->
  Background.onMessage (Some m) now cache =
    Background.Responded
      {| error := Some "No text provided"; result := VUndefined; cached := false |}.
Proof.
  intros Ht Hx. unfold Background.onMessage. rewrite Ht. simpl.
  destruct Hx as [-> | ->]; reflexivity.
Qed.

Lemma no_text_is_rejected_witness :
  Background.onMessage
    (Some {| msg_type := "analyze"; msg_text := Some ""; msg_postId := Some "42" |})
    1000 ∅ =
  Background.Responded
    {| error := Some "No text provided"; result := VUndefined; cached := false |}.
Proof.
  apply no_text_is_rejected; [reflexivity | right; reflexivity].
Defined.

(** *** The two caches *)

Section PageCache.
Import Content.
Variable innerText : node -> string.

Lemma sentimentCache_analyzeAndShow text postId pg :
  sentimentCache (analyzeAndShow text postId pg) = sentimentCache pg.
Proof.
  unfold analyzeAndShow.
  destruct (_ || _); reflexivity.
Qed.

Lemma sentimentCache_processPost pg :
  sentimentCache (state_of (processPost innerText pg)) = sentimentCache pg.
Proof.
  unfold processPost.
  destruct (String.eqb _ _); [reflexivity|].
  destruct (getFromCache _ _ _) as [c|].
  - destruct (truthy _).
    + destruct (applySentimentToElement _ _); reflexivity.
    + destruct (bool_decide _); [reflexivity|].
      apply sentimentCache_analyzeAndShow.
  - destruct (bool_decide _); [reflexivity|].
    apply sentimentCache_analyzeAndShow.
Qed.


End PageCache.



(** *** Selection of the best item *)

Section BestItem.
Import Content Spec.

Lemma higher_numeric (a b : value) (qa qb : Q) :
  get_score a = Some qa -> get_score b = Some qb ->
  higher a b = Some (if Qgtb qb qa then b else a).
Proof.
  intros Ha Hb. unfold higher.
  destruct b; try discriminate. simpl in *. rewrite Ha, Hb. reflexivity.
Qed.

(** The reduction from an accumulator with score [qa]: the accumulator
    survives when no item is above it, else the result is the first of the
    items of maximal score. *)
Lemma reduce_higher_first_max (items : list value) :
  forall (acc : value) (qa : Q),
    get_score acc = Some qa ->
    Forall (fun v => has_numeric_score v = true) items ->
    exists best qb,
      reduce higher items acc = Some best /\ get_score best = Some qb /\
      ((best = acc /\ Forall (at_most qa) items) \/
       (exists before after,
          items = before ++ best :: after /\ (qa < qb)%Q /\
          Forall (below qb) before /\ Forall (at_most qb) after)).
Proof.
  induction items as [|b r IH]; intros acc qa Ha Hall.
  - exists acc, qa. split; [reflexivity|]. split; [exact Ha|]. left.
    split; [reflexivity | constructor].
  - inversion Hall as [|? ? Hb Hr]; subst.
    unfold has_numeric_score in Hb.
    destruct (get_score b) as [qb|] eqn:Eb; [|discriminate].
    simpl. rewrite (higher_numeric acc b qa qb Ha Eb).
    destruct (Qgtb qb qa) eqn:Hcmp.
    + apply Qgtb_true in Hcmp.
      destruct (IH b qb Eb Hr) as (best & q & Hred & Hq & [[-> Hle] | Hsplit]).
      * exists b, qb. split; [exact Hred|]. split; [exact Eb|]. right.
        exists [], r. repeat split; [exact Hcmp | constructor | exact Hle].
      * destruct Hsplit as (before & after & -> & Hlt & Hbef & Haft).
        exists best, q. split; [exact Hred|]. split; [exact Hq|]. right.
        exists (b :: before), after. repeat split.
        -- apply Qlt_trans with qb; assumption.
        -- constructor; [|exact Hbef]. exists qb. split; [exact Eb | exact Hlt].
        -- exact Haft.
    + apply Qgtb_false in Hcmp.
      destruct (IH acc qa Ha Hr) as (best & q & Hred & Hq & [[-> Hle] | Hsplit]).
      * exists acc, qa. split; [exact Hred|]. split; [exact Ha|]. left.
        split; [reflexivity|]. constructor; [|exact Hle].
        exists qb. split; [exact Eb | exact Hcmp].
      * destruct Hsplit as (before & after & -> & Hlt & Hbef & Haft).
        exists best, q. split; [exact Hred|]. split; [exact Hq|]. right.
        exists (b :: before), after. repeat split.
        -- exact Hlt.
        -- constructor; [|exact Hbef]. exists qb. split; [exact Eb|].
           apply Qle_lt_trans with qa; assumption.
        -- exact Haft.
Qed.

Lemma above_numeric (q : Q) (v : value) :
  above q v -> has_numeric_score v = true.
Proof.
  intros (p & Hp & _). unfold has_numeric_score. rewrite Hp. reflexivity.
Qed.

End BestItem.

(** C6. On a non-empty list of scores (numbers above the [-1] the reduction
    starts from, as probabilities are) the reduction selects the first item
    of maximal score: every item before it has a strictly smaller score,
    every item after it a score at most equal.  Labels play no part. *)
Theorem best_is_first_maximum (items : list value) :
  items <> [] ->
  Forall (Spec.above (-1)) items ->
  exists before best after q,
    items = before ++ best :: after /\
    Content.best_of items = Some best /\
    get_score best = Some q /\
    Forall (Spec.below q) before /\
    Forall (Spec.at_most q) after.
Proof.
  intros Hne Hall.
  assert (Forall (fun v => has_numeric_score v = true) items) as Hnum.
  { eapply Forall_impl; [exact Hall|]. intros v Hv. eapply above_numeric, Hv. }
  destruct (reduce_higher_first_max items Content.sentinel (-1)%Q eq_refl Hnum)
    as (best & q & Hred & Hq & [[_ Hle] | Hsplit]).
  - destruct items as [|x r]; [contradiction|].
    inversion Hall as [|? ? (p & Hp & Hlt) _]; subst.
    inversion Hle as [|? ? (p' & Hp' & Hle') _]; subst.
    rewrite Hp in Hp'. injection Hp' as <-.
    exfalso. apply (Qlt_not_le _ _ Hlt Hle').
  - destruct Hsplit as (before & after & -> & _ & Hbef & Haft).
    exists before, best, after, q. repeat split; assumption.
Qed.

Lemma best_is_first_maximum_witness :
  Forall (Spec.above (-1))
    [Examples.item "positive" (1 # 2); Examples.item "negative" (1 # 2)] /\
  exists before best after q,
    [Examples.item "positive" (1 # 2); Examples.item "negative" (1 # 2)] =
      before ++ best :: after /\
    Content.best_of
      [Examples.item "positive" (1 # 2); Examples.item "negative" (1 # 2)] =
      Some best /\
    get_score best = Some q /\
    Forall (Spec.below q) before /\
    Forall (Spec.at_most q) after.
Proof.
  assert (Forall (Spec.above (-1))
    [Examples.item "positive" (1 # 2); Examples.item "negative" (1 # 2)]) as H.
  { repeat constructor; exists (1 # 2)%Q; split; reflexivity. }
  split; [exact H|].
  apply best_is_first_maximum; [discriminate | exact H].
Defined.

(** *** The guard of the render functions *)

(** C10, as stated, fails: an array holding a string is not a non-empty
    array of scores, yet both render functions restyle the post when they are
    given it, the reduction ending on the initial accumulator and the label
    falling back to neutral. *)
Lemma render_guard_counterexample :
  Spec.nonempty_score_array (VArr [VStr "hello"]) = false /\
  classList_of Examples.post = [] /\
  classList_of
    (state_of (Content.applySentimentToElement Examples.post (VArr [VStr "hello"]))) =
    ["ps-sentiment-container"; "ps-sentiment-border"; "ps-sentiment-neutral"] /\
  Content.applySentimentToElement Examples.post (VArr [VStr "hello"]) <>
    Normal Examples.post /\
  Content.applySentimentSummary Examples.post (VArr [VStr "hello"]) <>
    Normal Examples.post.
Proof.
  split; [reflexivity|]. split; [reflexivity|]. split; [vm_compute; reflexivity|].
  split; vm_compute; intros H; discriminate H.
Qed.

(** C10, amended.  Called with a value that is not an array, or with the
    empty array, either render function returns at once: the element is
    left as it was. *)
Theorem render_guard_noop (articleEl : node) (labelScores : value) :
  isArray labelScores = false \/ labelScores = VArr [] ->
  Content.applySentimentToElement articleEl labelScores = Normal articleEl /\
  Content.applySentimentSummary articleEl labelScores = Normal articleEl.
Proof.
  intros [H | ->]; [|split; reflexivity].
  destruct labelScores; try discriminate H; split; reflexivity.
Qed.

Lemma render_guard_noop_witness :
  isArray (VObj (VStr "positive") (Some (9 # 10))) = false /\
  Content.applySentimentToElement Examples.post
    (VObj (VStr "positive") (Some (9 # 10))) = Normal Examples.post /\
  Content.applySentimentSummary Examples.post
    (VObj (VStr "positive") (Some (9 # 10))) = Normal Examples.post.
Proof.
  split; [reflexivity|].
  apply render_guard_noop. left. reflexivity.
Defined.

(** *** Trees: a mutation of the selected node, done again *)

Section NodeInduction.
Variable P : node -> Prop.
Hypothesis P_Text : forall s, P (Text s).
Hypothesis P_Element :
  forall t c a s ch, Forall P ch -> P (Element t c a s ch).

Fixpoint node_children_ind (n : node) : P n :=
  match n with
  | Text s => P_Text s
  | Element t c a s ch =>
      P_Element t c a s ch
        ((fix all (l : list node) : Forall P l :=
            match l with
            | [] => List.Forall_nil P
            | x :: r => List.Forall_cons P x r (node_children_ind x) (all r)
            end) ch)
  end.
End NodeInduction.

Section UpdateFirst.
Context {A : Type} (f : A -> option (completion A)).

Lemma update_first_again (l : list A) :
  Forall (fun x => forall cx, f x = Some cx -> f (state_of cx) = Some cx) l ->
  forall c, update_first f l = Some c -> update_first f (state_of c) = Some c.
Proof.
  induction 1 as [|x r Hx _ IH]; intros c Hc; simpl in Hc; [discriminate|].
  destruct (f x) as [cx|] eqn:Efx.
  - injection Hc as <-. specialize (Hx cx eq_refl).
    destruct cx as [x'|x']; simpl in *; rewrite Hx; reflexivity.
  - destruct (update_first f r) as [cr|] eqn:Er; [|discriminate].
    injection Hc as <-. specialize (IH cr eq_refl).
    destruct cr as [r'|r']; simpl in *; rewrite Efx, IH; reflexivity.
Qed.

Lemma update_first_append (l : list A) (x : A) (cx : completion A) :
  update_first f l = None -> f x = Some cx ->
  update_first f (l ++ [x]) = Some (cmap (fun x' => l ++ [x']) cx).
Proof.
  intros Hl Hx. induction l as [|y r IH]; simpl in *.
  - rewrite Hx. destruct cx; reflexivity.
  - destruct (f y); [discriminate|].
    destruct (update_first f r); [discriminate|].
    rewrite (IH eq_refl). destruct cx; reflexivity.
Qed.
End UpdateFirst.

Section SelectedAgain.
Variable sel : node -> bool.
Variable g : node -> completion node.
Hypothesis sel_text : forall s, sel (Text s) = false.
Hypothesis sel_local :
  forall t c a s ch ch',
    sel (Element t c a s ch) = sel (Element t c a s ch').
Hypothesis g_element :
  forall t c a s ch, exists c' a' s' ch',
    state_of (g (Element t c a s ch)) = Element t c' a' s' ch'.
Hypothesis g_keeps : forall n, sel n = true -> sel (state_of (g n)) = true.
Hypothesis g_again : forall n, g (state_of (g n)) = g n.

Lemma modify_first_again (n : node) :
  forall c, modify_first sel g n = Some c ->
            modify_first sel g (state_of c) = Some c.
Proof.
  induction n as [s|t cl a st ch IH] using node_children_ind;
    intros c Hc; simpl in Hc; [discriminate|].
  destruct (sel (Element t cl a st ch)) eqn:Es.
  - injection Hc as <-.
    destruct (g_element t cl a st ch) as (c' & a' & s' & ch' & Hg).
    pose proof (g_keeps _ Es) as Hk. rewrite Hg in *.
    simpl. rewrite Hk, <- Hg, g_again. reflexivity.
  - destruct (update_first (modify_first sel g) ch) as [cc|] eqn:Eu;
      [|discriminate].
    injection Hc as <-.
    pose proof (update_first_again _ ch IH cc Eu) as Hagain.
    destruct cc as [ch'|ch']; simpl in *;
      rewrite (sel_local t cl a st ch' ch), Es, Hagain; reflexivity.
Qed.

Lemma children_again (ch : list node) (cc : completion (list node)) :
  update_first (modify_first sel g) ch = Some cc ->
  update_first (modify_first sel g) (state_of cc) = Some cc.
Proof.
  apply update_first_again, Forall_forall. intros x _.
  apply modify_first_again.
Qed.

Lemma children_appended (ch : list node) (x : node) :
  update_first (modify_first sel g) ch = None ->
  sel x = true ->
  update_first (modify_first sel g) (ch ++ [x]) =
    Some (cmap (fun x' => ch ++ [x']) (g x)).
Proof.
  intros Hnone Hx. apply update_first_append; [exact Hnone|].
  destruct x as [s|t c a st ch']; simpl; [|rewrite Hx; reflexivity].
  rewrite sel_text in Hx. discriminate.
Qed.
Lemma update_none_find_none (ch : list node) :
  Forall (fun x => modify_first sel g x = None -> find_first sel x = None) ch ->
  update_first (modify_first sel g) ch = None ->
  first_some (find_first sel) ch = None.
Proof.
  induction 1 as [|x r Hx _ IH]; intros Hu; [reflexivity|].
  simpl in *. destruct (modify_first sel g x); [discriminate|].
  rewrite (Hx eq_refl). apply IH.
  destruct (update_first _ r); [discriminate | reflexivity].
Qed.

Lemma modify_none_find_none (n : node) :
  modify_first sel g n = None -> find_first sel n = None.
Proof.
  induction n as [s|t cl a st ch IH] using node_children_ind;
    intros H; [reflexivity|].
  simpl in *. destruct (sel (Element t cl a st ch)); [discriminate|].
  apply update_none_find_none; [exact IH|].
  destruct (update_first _ ch); [discriminate | reflexivity].
Qed.




Lemma update_first_normal (ch : list node) :
  Forall (fun x => forall cx, modify_first sel g x = Some cx ->
                              is_normal cx = true) ch ->
  forall cc, update_first (modify_first sel g) ch = Some cc ->
             is_normal cc = true.
Proof.
  induction 1 as [|x r Hx _ IH]; intros cc Hu; simpl in Hu; [discriminate|].
  destruct (modify_first sel g x) as [cx|].
  - injection Hu as <-. specialize (Hx cx eq_refl). destruct cx; auto.
  - destruct (update_first _ r) as [cr|]; [|discriminate].
    injection Hu as <-. specialize (IH cr eq_refl). destruct cr; auto.
Qed.

Lemma modify_first_normal (n : node) :
  (forall x, is_normal (g x) = true) ->
  forall c, modify_first sel g n = Some c -> is_normal c = true.
Proof.
  intros Hg.
  induction n as [s|t cl a st ch IH] using node_children_ind;
    intros c Hc; simpl in Hc; [discriminate|].
  destruct (sel (Element t cl a st ch)).
  - injection Hc as <-. apply Hg.
  - destruct (update_first (modify_first sel g) ch) as [cc|] eqn:Eu;
      [|discriminate].
    injection Hc as <-.
    pose proof (update_first_normal ch IH cc Eu) as Hn. destruct cc; auto.
Qed.

Lemma children_normal (ch : list node) (cc : completion (list node)) :
  (forall x, is_normal (g x) = true) ->
  update_first (modify_first sel g) ch = Some cc -> is_normal cc = true.
Proof.
  intros Hg. apply update_first_normal, Forall_forall. intros x _.
  apply modify_first_normal, Hg.
Qed.
End SelectedAgain.

(** *** Class lists *)

Section ClassLists.

Lemma remove_tokens_app (ts l1 l2 : list string) :
  remove_tokens ts (l1 ++ l2) = remove_tokens ts l1 ++ remove_tokens ts l2.
Proof. apply List.filter_app. Qed.

Lemma remove_tokens_elem (ts cl : list string) (t : string) :
  t ∈ remove_tokens ts cl <-> t ∈ cl /\ t ∉ ts.
Proof.
  unfold remove_tokens. rewrite !list_elem_of_In, List.filter_In.
  rewrite negb_true_iff, bool_decide_eq_false, list_elem_of_In. reflexivity.
Qed.

Lemma remove_tokens_clean (ts l : list string) :
  (forall t, t ∈ l -> t ∉ ts) -> remove_tokens ts l = l.
Proof.
  induction l as [|x r IH]; intros H; [reflexivity|].
  simpl. rewrite bool_decide_eq_false_2 by (apply H; left).
  simpl. f_equal. apply IH. intros t Ht. apply H. right. exact Ht.
Qed.

Lemma remove_tokens_all (ts l : list string) :
  (forall t, t ∈ l -> t ∈ ts) -> remove_tokens ts l = [].
Proof.
  induction l as [|x r IH]; intros H; [reflexivity|].
  simpl. rewrite bool_decide_eq_true_2 by (apply H; left).
  simpl. apply IH. intros t Ht. apply H. right. exact Ht.
Qed.

Lemma remove_tokens_again (ts cl : list string) :
  remove_tokens ts (remove_tokens ts cl) = remove_tokens ts cl.
Proof.
  apply remove_tokens_clean. intros t Ht.
  apply remove_tokens_elem in Ht. tauto.
Qed.

Lemma add_token_elem (cl : list string) (t u : string) :
  u ∈ add_token cl t <-> u ∈ cl \/ u = t.
Proof.
  unfold add_token. case_bool_decide as Hin.
  - split; [tauto|]. intros [H | ->]; assumption.
  - rewrite elem_of_app, list_elem_of_singleton. reflexivity.
Qed.

Lemma add_token_present (cl : list string) (t : string) :
  t ∈ cl -> add_token cl t = cl.
Proof. intros H. unfold add_token. rewrite bool_decide_eq_true_2; auto. Qed.

Lemma add_token_absent (cl : list string) (t : string) :
  t ∉ cl -> add_token cl t = cl ++ [t].
Proof. intros H. unfold add_token. rewrite bool_decide_eq_false_2; auto. Qed.

(** Removing the tokens [ts] and adding [t], done twice, gives what it
    gives done once. *)
Lemma remove_add_again (ts cl : list string) (t : string) :
  add_token (remove_tokens ts (add_token (remove_tokens ts cl) t)) t =
  add_token (remove_tokens ts cl) t.
Proof.
  set (l := remove_tokens ts cl).
  assert (forall u, u ∈ l -> u ∉ ts) as Hl.
  { intros u Hu. apply remove_tokens_elem in Hu. tauto. }
  destruct (decide (t ∈ ts)) as [Hin | Hout].
  - assert (t ∉ l) as Hnot by (intros H; exact (Hl t H Hin)).
    rewrite (add_token_absent l t Hnot), remove_tokens_app.
    rewrite (remove_tokens_clean ts l Hl).
    rewrite (remove_tokens_all ts [t]).
    + rewrite app_nil_r. apply add_token_absent, Hnot.
    + intros u Hu. apply list_elem_of_singleton in Hu. subst. exact Hin.
  - rewrite (remove_tokens_clean ts (add_token l t)).
    + apply add_token_present, add_token_elem. right. reflexivity.
    + intros u Hu. apply add_token_elem in Hu. destruct Hu as [Hu | ->]; auto.
Qed.

(** The class list of the post after [classList.remove] of the tokens [ts]
    and [classList.add] of [c], [b] and [s], where [c] is not among [ts] and
    [b] and [s], distinct, are. *)
Lemma restyle_again (ts cl : list string) (c b s : string) :
  c ∉ ts -> b ∈ ts -> s ∈ ts -> b <> s ->
  let once := fold_left add_token [c; b; s] (remove_tokens ts cl) in
  fold_left add_token [c; b; s] (remove_tokens ts (add_token once c)) =
    add_token once c.
Proof.
  intros Hc Hb Hs Hbs. simpl.
  set (l := add_token (remove_tokens ts cl) c).
  assert (forall u, u ∈ l -> u ∉ ts) as Hl.
  { intros u Hu. apply add_token_elem in Hu. destruct Hu as [Hu | ->]; auto.
    apply remove_tokens_elem in Hu. tauto. }
  assert (c ∈ l) as Hcl by (apply add_token_elem; right; reflexivity).
  assert (b ∉ l) as Hbl by (intros H; exact (Hl b H Hb)).
  assert (s ∉ l) as Hsl by (intros H; exact (Hl s H Hs)).
  rewrite (add_token_absent l b Hbl).
  assert (s ∉ l ++ [b]) as Hsb.
  { rewrite elem_of_app, list_elem_of_singleton. intros [H | H]; auto. }
  rewrite (add_token_absent _ s Hsb).
  assert (c ∈ (l ++ [b]) ++ [s]) as Hc3.
  { rewrite !elem_of_app. left. left. exact Hcl. }
  rewrite (add_token_present _ c Hc3).
  rewrite !remove_tokens_app, (remove_tokens_clean ts l Hl).
  rewrite (remove_tokens_all ts [b]), (remove_tokens_all ts [s]).
  - rewrite !app_nil_r. rewrite (add_token_present l c Hcl).
    rewrite (add_token_absent l b Hbl), (add_token_absent _ s Hsb). reflexivity.
  - intros u Hu. apply list_elem_of_singleton in Hu. subst. exact Hs.
  - intros u Hu. apply list_elem_of_singleton in Hu. subst. exact Hb.
Qed.

End ClassLists.

(** *** Rendering twice *)

Section RenderTwice.
Import Content.

Lemma paintSummary_element bestLabel text title t c a s ch :
  exists c' a' s' ch',
    state_of (paintSummary bestLabel text title (Element t c a s ch)) =
      Element t c' a' s' ch'.
Proof.
  unfold paintSummary. destruct (valid_token _); simpl; eauto.
Qed.

Lemma paintSummary_keeps bestLabel text title (n : node) :
  is_summary n = true ->
  is_summary (state_of (paintSummary bestLabel text title n)) = true.
Proof.
  destruct n as [s|t c a st ch]; [discriminate|].
  unfold is_summary, by_class, contains. simpl.
  rewrite bool_decide_eq_true. intros Hin.
  assert ("ps-sentiment-summary" ∈ remove_tokens sentimentClasses c) as Hrem.
  { apply remove_tokens_elem. split; [exact Hin|].
    unfold sentimentClasses. rewrite !elem_of_cons, elem_of_nil.
    intros [H | [H | [H | H]]]; try discriminate H; exact H. }
  unfold paintSummary. destruct (valid_token _); simpl;
    rewrite bool_decide_eq_true; [|exact Hrem].
  apply add_token_elem. left. exact Hrem.
Qed.

Lemma paintSummary_again bestLabel text title (n : node) :
  paintSummary bestLabel text title
    (state_of (paintSummary bestLabel text title n)) =
  paintSummary bestLabel text title n.
Proof.
  destruct n as [s|t c a st ch]; unfold paintSummary;
    destruct (valid_token _); simpl; try reflexivity.
  - rewrite remove_add_again. f_equal. f_equal.
    apply map_eq. intros k. rewrite !lookup_insert.
    repeat case_decide; reflexivity.
  - rewrite remove_tokens_again. reflexivity.
Qed.

Lemma on_children_again bestLabel text title (ch : list node) :
  let paint := paintSummary bestLabel text title in
  on_children paint (state_of (on_children paint ch)) = on_children paint ch.
Proof.
  intros paint.
  assert (forall s, is_summary (Text s) = false) as Htext by reflexivity.
  assert (forall t c a s ch0 ch',
            is_summary (Element t c a s ch0) = is_summary (Element t c a s ch'))
    as Hlocal by reflexivity.
  pose proof (paintSummary_element bestLabel text title) as Helem.
  pose proof (paintSummary_keeps bestLabel text title) as Hkeeps.
  pose proof (paintSummary_again bestLabel text title) as Hagain.
  fold paint in Helem, Hkeeps, Hagain.
  unfold on_children.
  destruct (update_first (modify_first is_summary paint) ch) as [cc|] eqn:Eu.
  - rewrite (children_again is_summary paint Hlocal Helem Hkeeps Hagain ch cc Eu).
    reflexivity.
  - assert (state_of (cmap (fun x => ch ++ [x]) (paint newSummary)) =
            ch ++ [state_of (paint newSummary)]) as ->.
    { destruct (paint newSummary); reflexivity. }
    rewrite (children_appended is_summary paint Htext ch
               (state_of (paint newSummary)) Eu (Hkeeps newSummary eq_refl)).
    rewrite Hagain. reflexivity.
Qed.

Lemma painter_again items best (ch : list node) :
  on_children (painter items best) (state_of (on_children (painter items best) ch)) =
  on_children (painter items best) ch.
Proof. unfold painter. exact (on_children_again _ _ _ ch). Qed.

Lemma applySentimentSummary_element t cl a s ch x l best :
  best_of (x :: l) = Some best ->
  applySentimentSummary (Element t cl a s ch) (VArr (x :: l)) =
    cmap (Element t (add_token cl "ps-sentiment-container") a s)
      (on_children (painter (x :: l) best) ch).
Proof.
  intros Hbest. unfold applySentimentSummary. rewrite Hbest.
  fold (painter (x :: l) best).
  change (classList_add ["ps-sentiment-container"] (Element t cl a s ch))
    with (Element t (add_token cl "ps-sentiment-container") a s ch).
  unfold with_selected, on_children.
  destruct (update_first _ ch) as [cc|]; cbn [option_map].
  - reflexivity.
  - unfold appendChild. destruct (painter (x :: l) best newSummary); reflexivity.
Qed.

Lemma applySentimentSummary_text s v :
  state_of (applySentimentSummary (Text s) v) = Text s.
Proof.
  destruct v as [| | | | |items|]; try reflexivity.
  destruct items as [|x l]; [reflexivity|].
  unfold applySentimentSummary. destruct (best_of _); [|reflexivity].
  simpl. match goal with |- context [cmap _ ?c] => destruct c end; reflexivity.
Qed.

Lemma applySentimentToElement_text s v :
  state_of (applySentimentToElement (Text s) v) = Text s.
Proof.
  destruct v as [| | | | |items|]; try reflexivity.
  destruct items as [|x l]; [reflexivity|].
  unfold applySentimentToElement. destruct (best_of _); [|reflexivity].
  simpl classList_remove. simpl classList_add. simpl setAttribute.
  apply applySentimentSummary_text.
Qed.

Lemma sentimentClass_cases (label : string) :
  default "ps-sentiment-neutral" (classMap label) ∈ sentimentClasses.
Proof.
  unfold classMap.
  repeat (destruct (String.eqb label _);
          [decided|]).
  decided.
Qed.

Lemma applySentimentToElement_element t cl a s ch x l best :
  best_of (x :: l) = Some best ->
  let once :=
    fold_left add_token
      ["ps-sentiment-container"; "ps-sentiment-border";
       default "ps-sentiment-neutral" (classMap (label_of best))]
      (remove_tokens (sentimentClasses ++ ["ps-sentiment-border"]) cl) in
  applySentimentToElement (Element t cl a s ch) (VArr (x :: l)) =
    cmap (Element t (add_token once "ps-sentiment-container")
            (<["data-ps-sentiment-label" := label_of best]> a) s)
      (on_children (painter (x :: l) best) ch).
Proof.
  intros Hbest once. unfold applySentimentToElement. rewrite Hbest.
  simpl classList_remove. simpl classList_add. simpl setAttribute.
  apply applySentimentSummary_element, Hbest.
Qed.

End RenderTwice.

(** C8. Rendering is idempotent.  Whatever the post element and whatever the
    value passed, a second call of either render function with the same
    value on the element the first call left ends the way the first did and
    leaves the element exactly as the first did: same class lists, same
    attributes, same children, hence no second summary block. *)
Theorem render_twice (articleEl : node) (labelScores : value) :
  Content.applySentimentToElement
    (state_of (Content.applySentimentToElement articleEl labelScores))
    labelScores =
  Content.applySentimentToElement articleEl labelScores /\
  Content.applySentimentSummary
    (state_of (Content.applySentimentSummary articleEl labelScores))
    labelScores =
  Content.applySentimentSummary articleEl labelScores.
Proof.
  destruct articleEl as [s0|t cl a s ch].
  { rewrite applySentimentToElement_text, applySentimentSummary_text.
    split; reflexivity. }
  destruct labelScores as [| | | | |items|]; try (split; reflexivity).
  destruct items as [|x l]; [split; reflexivity|].
  destruct (Content.best_of (x :: l)) as [best|] eqn:Hbest.
  - split.
    + pose proof (applySentimentToElement_element t cl a s) as Hel.
      cbv zeta in Hel.
      set (sc := default "ps-sentiment-neutral"
                   (Content.classMap (Content.label_of best))) in *.
      set (once := fold_left add_token
                     ["ps-sentiment-container"; "ps-sentiment-border"; sc]
                     (remove_tokens
                        (Content.sentimentClasses ++ ["ps-sentiment-border"]) cl)).
      rewrite (Hel ch x l best Hbest). fold sc. fold once.
      assert (forall cc : completion (list node),
        state_of (cmap (Element t (add_token once "ps-sentiment-container")
                          (<["data-ps-sentiment-label" := Content.label_of best]> a) s) cc) =
        Element t (add_token once "ps-sentiment-container")
          (<["data-ps-sentiment-label" := Content.label_of best]> a) s (state_of cc))
        as Hst by (intros [?|?]; reflexivity).
      rewrite Hst.
      pose proof (applySentimentToElement_element t
                    (add_token once "ps-sentiment-container")
                    (<["data-ps-sentiment-label" := Content.label_of best]> a) s)
        as Hel2.
      cbv zeta in Hel2. rewrite (Hel2 _ x l best Hbest). fold sc.
      rewrite painter_again, insert_insert_eq. f_equal. f_equal.
      pose proof (sentimentClass_cases (Content.label_of best)) as Hs.
      fold sc in Hs.
      assert ("ps-sentiment-container" ∉
              Content.sentimentClasses ++ ["ps-sentiment-border"]) as Hc
        by decided.
      assert ("ps-sentiment-border" ∈
              Content.sentimentClasses ++ ["ps-sentiment-border"]) as Hb
        by decided.
      assert ("ps-sentiment-border" ∉ Content.sentimentClasses) as Hbs
        by decided.
      assert (sc ∈ Content.sentimentClasses ++ ["ps-sentiment-border"]) as Hsc
        by (apply elem_of_app; left; exact Hs).
      assert ("ps-sentiment-border" <> sc) as Hne
        by (intros E; apply Hbs; rewrite E; exact Hs).
      pose proof (restyle_again
        (Content.sentimentClasses ++ ["ps-sentiment-border"]) cl
        "ps-sentiment-container" "ps-sentiment-border" sc Hc Hb Hsc Hne) as Hre.
      cbv zeta in Hre. fold once in Hre. rewrite Hre.
      apply add_token_present, add_token_elem. right. reflexivity.
    + rewrite (applySentimentSummary_element t cl a s ch x l best Hbest).
      assert (forall cc : completion (list node),
        state_of (cmap (Element t (add_token cl "ps-sentiment-container") a s) cc) =
        Element t (add_token cl "ps-sentiment-container") a s (state_of cc))
        as Hst by (intros [?|?]; reflexivity).
      rewrite Hst.
      rewrite (applySentimentSummary_element _ _ _ _ _ x l best Hbest).
      rewrite painter_again. f_equal. f_equal.
      apply add_token_present, add_token_elem. right. reflexivity.
  - unfold Content.applySentimentToElement, Content.applySentimentSummary.
    rewrite Hbest. cbn [state_of].
    split; [reflexivity|].
    cbn [classList_add fold_left]. f_equal. f_equal.
    apply add_token_present, add_token_elem. right. reflexivity.
Qed.

(** *** The text of the summary *)

Section SummaryText.
Import Content.

Lemma Math_round_mono (p q : Q) : (p <= q)%Q -> Math_round p <= Math_round q.
Proof.
  intros H. unfold Math_round. apply Qfloor_resp_le.
  apply Qplus_le_l. exact H.
Qed.




Lemma valid_sentiment_token (label : string) :
  label ∈ allLabels -> valid_token ("ps-sentiment-" +:+ label) = true.
Proof.
  unfold allLabels. rewrite !elem_of_cons, elem_of_nil.
  intros [-> | [-> | [-> | []]]]; reflexivity.
Qed.


End SummaryText.



(** The example of the specification: neutral 60%, positive 25%, negative
    15% is shown with positive before negative. *)
Example summary_example :
  List.map Content.plainText
    (children_of
       (state_of
          (Content.applySentimentSummary (Element "article" [] ∅ ∅ [])
             (VArr [Examples.item "negative" (15 # 100);
                    Examples.item "neutral" (60 # 100);
                    Examples.item "positive" (25 # 100)])))) =
  ["NEUTRAL 60%" +:+ Content.newline +:+
   "POSITIVE 25% " +:+ Content.bullet +:+ " NEGATIVE 15%"].
Proof. vm_compute. reflexivity. Qed.

(** *** The identity of a post *)

Section PostIdentity.
Import Content Spec.

Lemma append_cons (c : ascii) (p r : string) :
  String c p +:+ r = String c (p +:+ r).
Proof. reflexivity. Qed.





End PostIdentity.



(** *** Scan passes over a marked post *)

Section ScanPasses.
Import Content Spec.
Variable innerText : node -> string.

Lemma marker_applySentimentToElement (el : node) (v : value) :
  getAttribute SENTIMENT_MARKER_ATTR (state_of (applySentimentToElement el v)) =
  getAttribute SENTIMENT_MARKER_ATTR el.
Proof.
  destruct el as [s0|t cl a s ch].
  { rewrite applySentimentToElement_text. reflexivity. }
  destruct v as [| | | | |items|]; try reflexivity.
  destruct items as [|x l]; [reflexivity|].
  destruct (best_of (x :: l)) as [best|] eqn:Hbest.
  - pose proof (applySentimentToElement_element t cl a s ch x l best Hbest) as H.
    cbv zeta in H. rewrite H.
    destruct (on_children _ ch); cbn [cmap state_of getAttribute];
      apply lookup_insert_ne; discriminate.
  - unfold applySentimentToElement. rewrite Hbest. reflexivity.
Qed.

Lemma analyzeAndShow_marked text postId (pg : page) :
  marked pg -> analyzeAndShow text postId pg = pg.
Proof.
  intros [H | H]; unfold analyzeAndShow; rewrite H; reflexivity.
Qed.

Lemma markerOf_setMarker (v : string) (pg : page) t c a s ch :
  articleEl pg = Element t c a s ch ->
  markerOf (setMarker v pg) = Some v.
Proof.
  intros H. unfold markerOf, setMarker. simpl. rewrite H. simpl.
  apply lookup_insert_eq.
Qed.

Lemma state_of_element t c a s (cc : completion (list node)) :
  state_of (cmap (Element t c a s) cc) = Element t c a s (state_of cc).
Proof. destruct cc; reflexivity. Qed.

Lemma applySentimentToElement_shape (el : node) (v : value) :
  (exists s, el = Text s) \/
  exists t c a s ch, state_of (applySentimentToElement el v) = Element t c a s ch.
Proof.
  destruct el as [s0|t cl a s ch]; [left; eauto | right].
  destruct v as [| | | | |items|]; try (repeat eexists; reflexivity).
  destruct items as [|x l]; [repeat eexists; reflexivity|].
  destruct (best_of (x :: l)) as [best|] eqn:Hbest.
  - pose proof (applySentimentToElement_element t cl a s ch x l best Hbest) as H.
    cbv zeta in H. rewrite H, state_of_element. repeat eexists.
  - unfold applySentimentToElement. rewrite Hbest. repeat eexists.
Qed.

(** A scan pass over a post marked pending or done sends nothing and leaves
    it marked. *)
Lemma processPost_marked (pg : page) :
  marked pg ->
  sent (state_of (processPost innerText pg)) = sent pg /\
  marked (state_of (processPost innerText pg)).
Proof.
  intros Hm. unfold processPost.
  destruct (String.eqb _ _); [split; [reflexivity | exact Hm]|].
  assert (sent (state_of (Normal
            (analyzeAndShow (extractTextFromPost innerText (articleEl pg))
               (getPostId (articleEl pg)) pg))) = sent pg /\
          marked (state_of (Normal
            (analyzeAndShow (extractTextFromPost innerText (articleEl pg))
               (getPostId (articleEl pg)) pg)))) as Hsend.
  { rewrite (analyzeAndShow_marked _ _ pg Hm). split; [reflexivity | exact Hm]. }
  destruct (getFromCache _ _ _) as [cached|].
  - destruct (truthy (labelScores cached)).
    + pose proof (marker_applySentimentToElement (articleEl pg) (labelScores cached))
        as Hmark.
      destruct (applySentimentToElement_shape (articleEl pg) (labelScores cached))
        as [[s0 Hs0] | (t & c & a & s & ch & Hshape)].
      * assert (markerOf pg = None) as Hnone
          by (unfold markerOf; rewrite Hs0; reflexivity).
        destruct Hm as [Hm | Hm]; rewrite Hnone in Hm; discriminate.
      * destruct (applySentimentToElement (articleEl pg) (labelScores cached))
          as [el|el]; cbn [state_of] in *.
        -- split; [reflexivity|]. right.
           apply (markerOf_setMarker "done" (setArticle el pg) t c a s ch).
           exact Hshape.
        -- split; [reflexivity|]. unfold marked, markerOf in *. simpl.
           rewrite Hmark. exact Hm.
    + destruct (bool_decide _); [split; [reflexivity | exact Hm]|]. exact Hsend.
  - destruct (bool_decide _); [split; [reflexivity | exact Hm]|]. exact Hsend.
Qed.

Lemma scans_marked (n : nat) (pg : page) :
  marked pg ->
  sent (run innerText (repeat Scanned n) pg) = sent pg /\
  marked (run innerText (repeat Scanned n) pg).
Proof.
  revert pg. induction n as [|n IH]; intros pg Hm; [split; [reflexivity | exact Hm]|].
  destruct (processPost_marked pg Hm) as [Hs Hm'].
  destruct (IH _ Hm') as [Hs' Hm''].
  split; [simpl; rewrite Hs'; exact Hs | exact Hm''].
Qed.

Lemma extractTextFromPost_setAttribute (k v : string) (el : node) :
  extractTextFromPost innerText (setAttribute k v el) =
  extractTextFromPost innerText el.
Proof. destruct el; reflexivity. Qed.

Lemma getPostId_setAttribute (v : string) (el : node) :
  getPostId (setAttribute SENTIMENT_MARKER_ATTR v el) = getPostId el.
Proof.
  destruct el as [|t c a s ch]; [reflexivity|].
  unfold getPostId, querySelector. cbn [setAttribute children_of getAttribute].
  rewrite lookup_insert_ne by discriminate. reflexivity.
Qed.

Lemma nonempty_text_element (el : node) :
  extractTextFromPost innerText el <> "" ->
  exists t c a s ch, el = Element t c a s ch.
Proof.
  destruct el as [s0|t c a s ch]; [|repeat eexists].
  intros H. exfalso. apply H. reflexivity.
Qed.
End ScanPasses.

(** C3. One request per unresolved post.  [analyzeAndShow] marks the
    element pending and then hands the request to [sendMessage]; called on an
    element marked pending or done it does nothing, and a scan pass over such
    an element sends nothing.  Hence, from a post with text, no cached result
    and no mark, any number of scan passes (two, in particular) before the
    response arrives send exactly one request. *)
Theorem one_request_per_post (innerText : node -> string)
  (pg pg' : Content.page) (text' : string) (postId' : option string) (n : nat) :
  Content.extractTextFromPost innerText (Content.articleEl pg) <> "" ->
  Content.getFromCache (Content.getPostId (Content.articleEl pg))
    (Content.extractTextFromPost innerText (Content.articleEl pg))
    (Content.sentimentCache pg) = None ->
  Content.markerOf pg <> Some "pending" ->
  Content.markerOf pg <> Some "done" ->
  Spec.marked pg' ->
  let text := Content.extractTextFromPost innerText (Content.articleEl pg) in
  let postId := Content.getPostId (Content.articleEl pg) in
  let request :=
    {| msg_type := "analyze"; msg_text := Some text; msg_postId := postId |} in
  Content.analyzeAndShow text postId pg =
    Content.sendMessage request (Content.setMarker "pending" pg) /\
  Content.markerOf (Content.setMarker "pending" pg) = Some "pending" /\
  Content.processPost innerText pg =
    Normal (Content.analyzeAndShow text postId pg) /\
  Content.analyzeAndShow text' postId' pg' = pg' /\
  Content.sent (state_of (Content.processPost innerText pg')) =
    Content.sent pg' /\
  Content.sent (Content.run innerText [Content.Scanned; Content.Scanned] pg) =
    Content.sent pg ++ [request] /\
  Content.sent (Content.run innerText (repeat Content.Scanned (S n)) pg) =
    Content.sent pg ++ [request].
Proof.
  intros Htext Hmiss Hpending Hdone Hmarked text postId request.
  destruct (nonempty_text_element innerText _ Htext) as (t & c & a & s & ch & Hel).
  assert (Content.analyzeAndShow text postId pg =
          Content.sendMessage request (Content.setMarker "pending" pg)) as Hsend.
  { unfold Content.analyzeAndShow.
    rewrite (bool_decide_eq_false_2 _ Hpending), (bool_decide_eq_false_2 _ Hdone).
    reflexivity. }
  assert (Content.markerOf (Content.setMarker "pending" pg) = Some "pending")
    as Hmark by (apply (markerOf_setMarker "pending" pg t c a s ch Hel)).
  assert (Content.processPost innerText pg =
          Normal (Content.analyzeAndShow text postId pg)) as Hpass.
  { unfold Content.processPost. fold text. fold postId.
    destruct (String.eqb_spec text ""); [contradiction|].
    fold text in Hmiss. fold postId in Hmiss. rewrite Hmiss.
    rewrite (bool_decide_eq_false_2 _ Hdone). reflexivity. }
  assert (Spec.marked (Content.analyzeAndShow text postId pg)) as Hm1.
  { rewrite Hsend. left. exact Hmark. }
  assert (forall k,
            Content.sent (Content.run innerText (repeat Content.Scanned (S k)) pg) =
            Content.sent pg ++ [request]) as Hruns.
  { intros k. cbn [repeat Content.run fold_left Content.step].
    rewrite Hpass. cbn [state_of].
    destruct (scans_marked innerText k _ Hm1) as [Hs _].
    unfold Content.run in Hs. rewrite Hs, Hsend. reflexivity. }
  split; [exact Hsend|]. split; [exact Hmark|]. split; [exact Hpass|].
  split; [apply (analyzeAndShow_marked _ _ _ Hmarked)|].
  split; [apply (processPost_marked innerText pg' Hmarked)|].
  split; [exact (Hruns 1%nat) | exact (Hruns n)].
Qed.

Lemma one_request_per_post_witness :
  Content.sent
    (Content.run Content.plainText [Content.Scanned; Content.Scanned]
       Examples.fresh_page) =
  [Examples.request].
Proof.
  pose proof (one_request_per_post Content.plainText Examples.fresh_page
    (Content.setMarker "done" Examples.fresh_page) "" None 1
    ltac:(vm_compute; discriminate) ltac:(vm_compute; reflexivity)
    ltac:(vm_compute; discriminate) ltac:(vm_compute; discriminate)
    ltac:(right; vm_compute; reflexivity)) as H.
  cbv zeta in H.
  destruct H as (_ & _ & _ & _ & _ & H2 & _).
  rewrite H2. vm_compute. reflexivity.
Defined.

(** *** Failures *)

Lemma error_toString_given (name msg : string) :
  name <> "" -> given (Some (Background.error_toString name msg)) = true.
Proof.
  intros Hne. unfold Background.error_toString, given.
  destruct (String.eqb_spec msg "").
  - destruct (String.eqb_spec name ""); [contradiction | reflexivity].
  - destruct name as [|c name]; [contradiction | reflexivity].
Qed.

(** C4. A fetch that fails, or that is answered with a status outside
    200..299, is turned by the service worker into an [{ error }] response,
    its cache untouched.  On that response the page script appends the grey
    [ERR 0%] marker to the post, whose own classes stay as they were, marks
    the post done and leaves its cache untouched; the scan passes that follow
    send no request for it. *)
Theorem failure_ends_in_error_marker (innerText : node -> string)
  (key : string) (now : Z) (o : Background.fetchOutcome)
  (bg : gmap string Background.entry)
  (text : string) (postId : option string) (pg : Content.page)
  (t : string) (c : list string) (a s : gmap string string) (ch : list node)
  (n : nat) :
  Spec.failed o = true ->
  Content.articleEl pg = Element t c a s ch ->
  let resp := snd (Background.onSettled key now o bg) in
  let uiErr :=
    setStyle "background" "#777" (Content.createSentimentElement "ERR" 0) in
  let pg' := state_of (Content.onResponse text postId (Some resp) pg) in
  fst (Background.onSettled key now o bg) = bg /\
  given (error resp) = true /\
  Content.onResponse text postId (Some resp) pg = Normal pg' /\
  Content.articleEl pg' =
    Element t c (<[Content.SENTIMENT_MARKER_ATTR := "done"]> a) s (ch ++ [uiErr]) /\
  classList_of uiErr = ["ps-sentiment-ui"; "ps-inline"] /\
  Forall (fun cl => cl ∉ classList_of uiErr) Content.sentimentClasses /\
  Content.plainText uiErr = "ERR 0%" /\
  Content.markerOf pg' = Some "done" /\
  Content.sentimentCache pg' = Content.sentimentCache pg /\
  Content.sent pg' = Content.sent pg /\
  Content.sent (Content.run innerText (repeat Content.Scanned n) pg') =
    Content.sent pg.
Proof.
  intros Hfail Hel resp uiErr pg'.
  assert (fst (Background.onSettled key now o bg) = bg /\
          given (error resp) = true) as [Hbg Hgiven].
  { subst resp. clear pg'.
    destruct o as [msg|status body json]; unfold Background.onSettled.
    - cbn [fst snd Background.errorResponse error]. split; [reflexivity|].
      apply error_toString_given. discriminate.
    - unfold Spec.failed in Hfail. rewrite Hfail.
      cbn [fst snd Background.errorResponse error]. split; [reflexivity|].
      apply error_toString_given. discriminate. }
  assert (Content.onResponse text postId (Some resp) pg =
          Normal (Content.showError pg)) as Hresp.
  { unfold Content.onResponse. rewrite Hgiven. reflexivity. }
  assert (pg' = Content.showError pg) as Hpg'
    by (subst pg'; rewrite Hresp; reflexivity).
  assert (Content.articleEl (Content.showError pg) =
          Element t c (<[Content.SENTIMENT_MARKER_ATTR := "done"]> a) s
            (ch ++ [uiErr])) as Harticle.
  { unfold Content.showError, Content.setMarker, Content.setArticle.
    cbn [Content.articleEl]. rewrite Hel. reflexivity. }
  assert (Content.markerOf (Content.showError pg) = Some "done") as Hmark.
  { unfold Content.markerOf. rewrite Harticle. cbn [getAttribute].
    apply lookup_insert_eq. }
  split; [exact Hbg|]. split; [exact Hgiven|].
  rewrite Hpg'.
  split; [exact Hresp|]. split; [exact Harticle|].
  split; [vm_compute; reflexivity|].
  split; [repeat constructor; decided|].
  split; [vm_compute; reflexivity|].
  split; [exact Hmark|]. split; [reflexivity|]. split; [reflexivity|].
  destruct (scans_marked innerText n (Content.showError pg)
              ltac:(right; exact Hmark)) as [Hs _].
  rewrite Hs. reflexivity.
Qed.

Lemma failure_ends_in_error_marker_witness :
  let o := Background.HttpResponse 500 "server error"
             (Background.SyntaxError "Unexpected token") in
  let resp := snd (Background.onSettled "k" 0 o ∅) in
  Spec.failed o = true /\
  error resp = Some "Error: HTTP 500: server error" /\
  Content.markerOf
    (state_of (Content.onResponse "I love this!" (Some "1234567") (Some resp)
                 Examples.fresh_page)) = Some "done" /\
  Content.sentimentCache
    (state_of (Content.onResponse "I love this!" (Some "1234567") (Some resp)
                 Examples.fresh_page)) = ∅.
Proof.
  intros o resp.
  pose proof (failure_ends_in_error_marker Content.plainText "k" 0 o ∅
                "I love this!" (Some "1234567") Examples.fresh_page
                _ _ _ _ _ 2 eq_refl eq_refl) as H.
  cbv zeta in H.
  destruct H as (_ & _ & _ & _ & _ & _ & _ & Hmark & Hcache & _).
  split; [reflexivity|]. split; [vm_compute; reflexivity|].
  split; [exact Hmark | exact Hcache].
Defined.

(** *** The shape of the payload *)

Section Normalization.
Import Content Spec.


End Normalization.



(** *** The pipeline on the sample post *)

(** A scan pass, then the response: the post ends marked done, with the
    positive class and the summary of the percentages; the result is cached
    under the identifier of the post. *)
Example end_to_end_example :
  let pg1 := state_of (Content.processPost Content.plainText Examples.fresh_page) in
  let pg2 :=
    state_of (Content.onResponse "I love this!" (Some "1234567")
                (Some (Examples.answer Examples.scores)) pg1) in
  Content.sent pg1 = [Examples.request] /\
  Content.markerOf pg1 = Some "pending" /\
  Content.markerOf pg2 = Some "done" /\
  classList_of (Content.articleEl pg2) =
    ["ps-sentiment-container"; "ps-sentiment-border"; "ps-sentiment-positive"] /\
  List.map Content.plainText (children_of (Content.articleEl pg2)) =
    [""; "I love this!";
     "POSITIVE 95%" +:+ Content.newline +:+
     "NEUTRAL 3% " +:+ Content.bullet +:+ " NEGATIVE 2%"] /\
  Content.labelScores <$> Content.sentimentCache pg2 !! "id:1234567" =
    Some Examples.scores.
Proof. vm_compute. repeat split; reflexivity. Qed.

(** The regular expression takes the leftmost run of digits that follows
    [status/]. *)
Example match_status_example :
  Content.match_status "/someone/status/12ab/status/34" = Some "12" /\
  Content.match_status "/someone/statuses/34" = None.
Proof. split; reflexivity. Qed.

(** One level only: the items of a second level of nesting are dropped with
    the other items that have no numeric score. *)
Example normalize_example :
  Content.normalize
    (VArr [VArr [Examples.item "a" 1; VNull]; VNum 3;
           VArr [VArr [Examples.item "b" 1]]; Examples.item "c" 0]) =
  Some [Examples.item "a" 1; Examples.item "c" 0].
Proof. reflexivity. Qed.

(** ** Further properties of the two scripts *)

(** *** Keys *)

Section Keys.
Import Content Notions.

Lemma append_inj_l (p x y : string) : p +:+ x = p +:+ y -> x = y.
Proof.
  induction p as [|c p IH]; intros H; [exact H|].
  rewrite !append_cons in H. injection H as H. apply IH, H.
Qed.

Lemma given_default (p : option string) :
  (if given p then default "" p else "") = default "" p.
Proof.
  destruct p as [v|]; [|reflexivity]. simpl.
  destruct (String.eqb_spec v ""); simpl; congruence.
Qed.

Lemma colon_split (a b x y : string) :
  colon_free a = true -> colon_free b = true ->
  a +:+ ":" +:+ x = b +:+ ":" +:+ y -> a = b /\ x = y.
Proof.
  revert b. induction a as [|c a IH]; intros b Ha Hb H.
  - destruct b as [|d b].
    + split; [reflexivity|]. injection H as H. exact H.
    + rewrite append_cons in H. injection H as Hc _. subst d.
      simpl in Hb. discriminate.
  - destruct b as [|d b].
    + rewrite append_cons in H. injection H as Hc _. subst c.
      simpl in Ha. discriminate.
    + rewrite !append_cons in H. injection H as -> H.
      simpl in Ha, Hb.
      apply andb_prop in Ha as [_ Ha]. apply andb_prop in Hb as [_ Hb].
      destruct (IH b Ha Hb H) as [-> ->]. split; reflexivity.
Qed.
End Keys.

(** X1. Two posts share a key of the page cache only in two ways: both have
    an identifier and it is the same one, whatever their texts; or neither
    has one and their texts agree on the first 200 characters.  A key made
    from an identifier is never a key made from a text. *)
Theorem page_keys_meet (p1 p2 : option string) (t1 t2 : string) :
  Content.cacheKeyFor p1 t1 = Content.cacheKeyFor p2 t2 <->
  (given p1 = true /\ given p2 = true /\ p1 = p2) \/
  (given p1 = false /\ given p2 = false /\ slice0 200 t1 = slice0 200 t2).
Proof.
  unfold Content.cacheKeyFor. split.
  - destruct (given p1) eqn:G1, (given p2) eqn:G2; intros H.
    + left. split; [reflexivity|]. split; [reflexivity|].
      apply (append_inj_l "id:") in H.
      destruct p1 as [a|], p2 as [b|]; try discriminate. simpl in H. congruence.
    + discriminate H.
    + discriminate H.
    + right. split; [reflexivity|]. split; [reflexivity|].
      apply (append_inj_l "text:") in H. exact H.
  - intros [(G1 & G2 & ->) | (G1 & G2 & H)]; rewrite ?G1, ?G2; [reflexivity|].
    rewrite H. reflexivity.
Qed.

(** X2. In the service worker, two requests whose identifiers hold no colon
    (those taken from a permalink are digits) get the same key only when the
    identifiers are equal and the texts agree on the first 200 characters. *)
Theorem background_keys_meet (p1 p2 : option string) (t1 t2 : string) :
  Notions.colon_free (default "" p1) = true ->
  Notions.colon_free (default "" p2) = true ->
  Background.keyFor p1 t1 = Background.keyFor p2 t2 ->
  default "" p1 = default "" p2 /\ slice0 200 t1 = slice0 200 t2.
Proof.
  intros H1 H2. unfold Background.keyFor. rewrite !given_default.
  apply colon_split; assumption.
Qed.

Lemma background_keys_meet_witness :
  Background.keyFor None "I love this!" =
    Background.keyFor (Some "") "I love this!" /\
  default "" None = default "" (Some "") /\
  slice0 200 "I love this!" = slice0 200 "I love this!".
Proof.
  split; [reflexivity|].
  apply (background_keys_meet None (Some "")); reflexivity.
Defined.

(** *** The listener of the service worker *)

(** X3. The listener starts a fetch only for an [analyze] message with a
    non-empty text, at the time of the call and under the key of the
    message, and only when the cache holds no entry under that key or one
    that is 120 000 ms old or older. *)
Theorem fetch_only_when_needed (message : option message) (now now' : Z)
  (cache : gmap string Background.entry) (key text : string) :
  Background.onMessage message now cache = Background.Fetching key now' text ->
  exists m,
    message = Some m /\ msg_type m = "analyze" /\
    msg_text m = Some text /\ text <> "" /\
    key = Background.keyFor (msg_postId m) text /\ now' = now /\
    match cache !! key with
    | Some e => Background.CACHE_TTL_MS <= now - Background.ts e
    | None => True
    end.
Proof.
  unfold Background.onMessage. destruct message as [m|]; [|discriminate].
  destruct (String.eqb_spec (msg_type m) "analyze") as [Ht|]; [|discriminate].
  simpl. destruct (msg_text m) as [x|] eqn:Hx; simpl; [|discriminate].
  destruct (String.eqb_spec x "") as [|Hne]; simpl; [discriminate|].
  unfold Background.fresh.
  destruct (cache !! Background.keyFor (msg_postId m) x) as [e|] eqn:He.
  - destruct (Z.ltb_spec (now - Background.ts e) Background.CACHE_TTL_MS);
      [discriminate|].
    intros E. injection E as <- <- <-. exists m. rewrite He.
    repeat split; auto.
  - intros E. injection E as <- <- <-. exists m. rewrite He.
    repeat split; auto.
Qed.

Lemma fetch_only_when_needed_witness :
  Background.onMessage (Some Examples.request) 121000
    (<["1234567:I love this!" :=
        {| Background.ts := 1000; Background.result := Examples.scores |}]> ∅) =
    Background.Fetching "1234567:I love this!" 121000 "I love this!" /\
  exists m,
    Some Examples.request = Some m /\ msg_type m = "analyze" /\
    msg_text m = Some "I love this!" /\ "I love this!" <> "" /\
    "1234567:I love this!" = Background.keyFor (msg_postId m) "I love this!" /\
    121000 = 121000 /\
    match (<["1234567:I love this!" :=
              {| Background.ts := 1000; Background.result := Examples.scores |}]>
             (∅ : gmap string Background.entry)) !! "1234567:I love this!" with
    | Some e => Background.CACHE_TTL_MS <= 121000 - Background.ts e
    | None => True
    end.
Proof.
  split; [reflexivity|].
  apply (fetch_only_when_needed (Some Examples.request) 121000 121000).
  reflexivity.
Defined.

(** X4. When the request settles, the service worker either answers with a
    non-empty error and leaves its cache as it was (transport failure,
    status outside 200..299, or a 2xx body that is not JSON), or answers
    with the parsed body, not flagged as cached, and stores that same value
    under the key with the time the request was received; the other keys are
    never touched. *)
Theorem settled_response_or_error (key : string) (now : Z)
  (o : Background.fetchOutcome) (cache : gmap string Background.entry) :
  let cache' := fst (Background.onSettled key now o cache) in
  let r := snd (Background.onSettled key now o cache) in
  ((given (error r) = true /\ result r = VUndefined /\ cache' = cache) \/
   (exists status body v,
      o = Background.HttpResponse status body (Background.Json v) /\
      Background.ok status = true /\
      r = {| error := None; result := v; cached := false |} /\
      cache' !! key = Some {| Background.ts := now; Background.result := v |})) /\
  delete key cache' = delete key cache.
Proof.
  intros cache' r. subst cache' r. unfold Background.onSettled.
  destruct o as [msg|status body json].
  - cbn [fst snd]. split; [|reflexivity]. left.
    split; [apply error_toString_given; discriminate|]. split; reflexivity.
  - destruct (Background.ok status) eqn:Hok; cbn [negb fst snd].
    + destruct json as [v|msg]; cbn [fst snd].
      * split.
        -- right. exists status, body, v. rewrite Hok.
           repeat split. apply lookup_insert_eq.
        -- apply delete_insert_eq.
      * split; [|reflexivity]. left.
        split; [apply error_toString_given; discriminate|]. split; reflexivity.
    + split; [|reflexivity]. left.
      split; [apply error_toString_given; discriminate|]. split; reflexivity.
Qed.

(** *** What a rendering changes *)

Section RenderFrame.
Import Content.

Lemma update_first_at {A} (f : A -> option (completion A)) (l : list A)
  (cc : completion (list A)) :
  update_first f l = Some cc ->
  exists (i : nat) (x : A) (cx : completion A),
    l !! i = Some x /\ f x = Some cx /\
    state_of cc = <[i := state_of cx]> l /\
    is_normal cc = is_normal cx.
Proof.
  revert cc. induction l as [|y r IH]; intros cc H; simpl in H; [discriminate|].
  destruct (f y) as [cy|] eqn:Ey.
  - injection H as <-. exists 0%nat, y, cy.
    split; [reflexivity|]. split; [exact Ey|]. destruct cy; split; reflexivity.
  - destruct (update_first f r) as [cr|]; [|discriminate].
    injection H as <-.
    destruct (IH cr eq_refl) as (i & x & cx & Hi & Hx & Hst & Hn).
    exists (S i), x, cx. split; [exact Hi|]. split; [exact Hx|].
    destruct cr; simpl in *; rewrite Hst; split; auto.
Qed.

Lemma find_none_modify_none (sel : node -> bool) (g : node -> completion node)
  (n : node) :
  find_first sel n = None -> modify_first sel g n = None.
Proof.
  induction n as [s|t cl a st ch IH] using node_children_ind;
    intros H; [reflexivity|].
  simpl in *. destruct (sel (Element t cl a st ch)); [discriminate|].
  assert (update_first (modify_first sel g) ch = None) as ->; [|reflexivity].
  induction IH as [|x r Hx _ IHr]; [reflexivity|].
  simpl in *. destruct (find_first sel x); [discriminate|].
  rewrite (Hx eq_refl), (IHr H). reflexivity.
Qed.

Lemma restyled_classes (ts cl : list string) (c b s : string) :
  c ∉ ts -> b ∈ ts -> s ∈ ts -> b <> s ->
  add_token (fold_left add_token [c; b; s] (remove_tokens ts cl)) c =
  add_token (remove_tokens ts cl) c ++ [b; s].
Proof.
  intros Hc Hb Hs Hbs. simpl.
  set (l := add_token (remove_tokens ts cl) c).
  assert (forall u, u ∈ l -> u ∉ ts) as Hl.
  { intros u Hu. apply add_token_elem in Hu. destruct Hu as [Hu | ->]; auto.
    apply remove_tokens_elem in Hu. tauto. }
  assert (c ∈ l) as Hcl by (apply add_token_elem; right; reflexivity).
  assert (b ∉ l) as Hbl by (intros H; exact (Hl b H Hb)).
  assert (s ∉ l ++ [b]) as Hsb.
  { rewrite elem_of_app, list_elem_of_singleton. intros [H | H]; auto.
    exact (Hl s H Hs). }
  rewrite (add_token_absent l b Hbl), (add_token_absent _ s Hsb).
  rewrite add_token_present by (rewrite !elem_of_app; left; left; exact Hcl).
  rewrite <- app_assoc. reflexivity.
Qed.

Lemma sentiment_filter_clean (ts l : list string) :
  (forall u, u ∈ l -> u ∉ ts) ->
  List.filter (fun u => bool_decide (u ∈ ts)) l = [].
Proof.
  induction l as [|x r IH]; intros H; [reflexivity|].
  simpl. rewrite bool_decide_eq_false_2 by (apply H; left).
  apply IH. intros u Hu. apply H. right. exact Hu.
Qed.
End RenderFrame.

(** X5. After [applySentimentToElement], for a winning label that is not a
    name the class map inherits, the class list of the post is the one it
    had, without the three sentiment classes and the border class,
    with the container class added at the end when it was not there,
    followed by the border class and the class of the winning label; so the
    post carries exactly one of the three sentiment classes, whatever it
    carried before, and its [data-ps-sentiment-label] is the winning
    label. *)
Theorem one_sentiment_class (t : string) (cl : list string)
  (a s : gmap string string) (ch : list node)
  (x : value) (l : list value) (best : value) :
  Content.best_of (x :: l) = Some best ->
  Notions.own_label best = true ->
  let el' :=
    state_of (Content.applySentimentToElement (Element t cl a s ch)
                (VArr (x :: l))) in
  let sc :=
    default "ps-sentiment-neutral" (Content.classMap (Content.label_of best)) in
  classList_of el' =
    add_token
      (remove_tokens (Content.sentimentClasses ++ ["ps-sentiment-border"]) cl)
      "ps-sentiment-container" ++ ["ps-sentiment-border"; sc] /\
  List.filter (fun u => bool_decide (u ∈ Content.sentimentClasses))
    (classList_of el') = [sc] /\
  getAttribute "data-ps-sentiment-label" el' = Some (Content.label_of best).
Proof.
  intros Hbest _ el' sc.
  pose proof (applySentimentToElement_element t cl a s ch x l best Hbest) as Hel.
  cbv zeta in Hel. fold sc in Hel.
  pose proof (sentimentClass_cases (Content.label_of best)) as Hs. fold sc in Hs.
  assert ("ps-sentiment-container" ∉
          Content.sentimentClasses ++ ["ps-sentiment-border"]) as Hc by decided.
  assert ("ps-sentiment-border" ∈
          Content.sentimentClasses ++ ["ps-sentiment-border"]) as Hb by decided.
  assert ("ps-sentiment-border" ∉ Content.sentimentClasses) as Hbs by decided.
  assert ("ps-sentiment-container" ∉ Content.sentimentClasses) as Hcs by decided.
  assert (sc ∈ Content.sentimentClasses ++ ["ps-sentiment-border"]) as Hsc
    by (apply elem_of_app; left; exact Hs).
  assert ("ps-sentiment-border" <> sc) as Hne
    by (intros E; apply Hbs; rewrite E; exact Hs).
  assert (classList_of el' =
    add_token
      (remove_tokens (Content.sentimentClasses ++ ["ps-sentiment-border"]) cl)
      "ps-sentiment-container" ++ ["ps-sentiment-border"; sc]) as Hcl.
  { subst el'. rewrite Hel, state_of_element. cbn [classList_of].
    apply restyled_classes; assumption. }
  split; [exact Hcl|]. split.
  - rewrite Hcl, List.filter_app.
    rewrite sentiment_filter_clean.
    + cbn [List.filter app].
      rewrite (bool_decide_eq_false_2 _ Hbs), (bool_decide_eq_true_2 _ Hs).
      reflexivity.
    + intros u Hu. apply add_token_elem in Hu. destruct Hu as [Hu | ->]; [|exact Hcs].
      apply remove_tokens_elem in Hu. destruct Hu as [_ Hu].
      intros Hin. apply Hu. apply elem_of_app. left. exact Hin.
  - subst el'. rewrite Hel, state_of_element. cbn [getAttribute].
    apply lookup_insert_eq.
Qed.

Lemma one_sentiment_class_witness :
  Content.best_of [Examples.item "negative" (7 # 10)] =
    Some (Examples.item "negative" (7 # 10)) /\
  List.filter (fun u => bool_decide (u ∈ Content.sentimentClasses))
    (classList_of
       (state_of
          (Content.applySentimentToElement
             (Element "article" ["tweet"; "ps-sentiment-positive"] ∅ ∅ [])
             (VArr [Examples.item "negative" (7 # 10)])))) =
  ["ps-sentiment-negative"].
Proof.
  split; [reflexivity|].
  exact (proj1 (proj2 (one_sentiment_class "article"
    ["tweet"; "ps-sentiment-positive"] ∅ ∅ [] (Examples.item "negative" (7 # 10))
    [] (Examples.item "negative" (7 # 10)) eq_refl eq_refl))).
Defined.

Section RenderFrameChildren.
Import Content.

Lemma children_none_find_none (sel : node -> bool)
  (g : node -> completion node) (ch : list node) :
  update_first (modify_first sel g) ch = None ->
  first_some (find_first sel) ch = None.
Proof.
  apply update_none_find_none, Forall_forall. intros x _.
  apply modify_none_find_none.
Qed.

Lemma modify_some_find_some (sel : node -> bool)
  (g : node -> completion node) (n : node) (c : completion node) :
  modify_first sel g n = Some c -> is_Some (find_first sel n).
Proof.
  intros H. destruct (find_first sel n) eqn:E; [eexists; reflexivity|].
  rewrite (find_none_modify_none sel g n E) in H. discriminate.
Qed.

(** What [on_children] does to the list of children. *)
Lemma on_children_shape bestLabel text title (ch : list node) :
  let ch' := state_of (on_children (paintSummary bestLabel text title) ch) in
  (exists x, ch' = ch ++ [x] /\ is_summary x = true /\
             first_some (find_first is_summary) ch = None) \/
  (exists (i : nat) x x',
     ch !! i = Some x /\ ch' = <[i := x']> ch /\
     is_Some (find_first is_summary x)).
Proof.
  intros ch'. subst ch'. unfold on_children.
  destruct (update_first _ ch) as [cc|] eqn:Eu.
  - right. destruct (update_first_at _ ch cc Eu) as (i & x & cx & Hi & Hx & Hst & _).
    exists i, x, (state_of cx). split; [exact Hi|]. split; [exact Hst|].
    exact (modify_some_find_some _ _ _ _ Hx).
  - left. exists (state_of (paintSummary bestLabel text title newSummary)).
    split; [destruct (paintSummary _ _ _ newSummary); reflexivity|].
    split; [apply paintSummary_keeps; reflexivity|].
    apply (children_none_find_none _ _ _ Eu).
Qed.
End RenderFrameChildren.

(** X6. What [applySentimentToElement] leaves alone.  Whatever the value
    passed, the post keeps its tag and its inline style; its attributes
    other than [data-ps-sentiment-label] are the same; and its children are
    the same list, or that list with a summary block appended when no
    descendant was one, or that list with the one child that holds the first
    summary block replaced.  No child is ever removed. *)
Theorem render_frame (t : string) (cl : list string)
  (a s : gmap string string) (ch : list node) (labelScores : value) :
  exists cl' a' ch',
    state_of (Content.applySentimentToElement (Element t cl a s ch) labelScores) =
      Element t cl' a' s ch' /\
    delete "data-ps-sentiment-label" a' = delete "data-ps-sentiment-label" a /\
    (ch' = ch \/
     (exists x, ch' = ch ++ [x] /\ Content.is_summary x = true /\
                first_some (find_first Content.is_summary) ch = None) \/
     (exists (i : nat) x x',
        ch !! i = Some x /\ ch' = <[i := x']> ch /\
        is_Some (find_first Content.is_summary x))).
Proof.
  assert (exists cl' a' ch',
            Element t cl a s ch = Element t cl' a' s ch' /\
            delete "data-ps-sentiment-label" a' =
              delete "data-ps-sentiment-label" a /\
            (ch' = ch \/
             (exists x, ch' = ch ++ [x] /\ Content.is_summary x = true /\
                        first_some (find_first Content.is_summary) ch = None) \/
             (exists (i : nat) x x',
                ch !! i = Some x /\ ch' = <[i := x']> ch /\
                is_Some (find_first Content.is_summary x)))) as Hsame.
  { exists cl, a, ch. split; [reflexivity|]. split; [reflexivity|]. left.
    reflexivity. }
  destruct labelScores as [| | | | |items|]; try exact Hsame.
  destruct items as [|x l]; [exact Hsame|].
  destruct (Content.best_of (x :: l)) as [best|] eqn:Hbest.
  - pose proof (applySentimentToElement_element t cl a s ch x l best Hbest) as Hel.
    cbv zeta in Hel. rewrite Hel, state_of_element.
    eexists _, _, _. split; [reflexivity|].
    split; [apply delete_insert_eq|]. right.
    unfold Content.painter. cbv zeta. apply on_children_shape.
  - unfold Content.applySentimentToElement. rewrite Hbest. exact Hsame.
Qed.

(** *** One rendering after another *)

Section TwoPaints.
Variable sel : node -> bool.
Variables g1 g2 : node -> completion node.
Hypothesis sel_text : forall s, sel (Text s) = false.
Hypothesis sel_local :
  forall t c a s ch ch',
    sel (Element t c a s ch) = sel (Element t c a s ch').
Hypothesis g1_element :
  forall t c a s ch, exists c' a' s' ch',
    state_of (g1 (Element t c a s ch)) = Element t c' a' s' ch'.
Hypothesis g1_keeps : forall n, sel n = true -> sel (state_of (g1 n)) = true.
Hypothesis g2_after : forall n, g2 (state_of (g1 n)) = g2 n.

Lemma update_first_after (ch : list node) :
  Forall (fun x => forall c1, modify_first sel g1 x = Some c1 ->
            modify_first sel g2 (state_of c1) = modify_first sel g2 x) ch ->
  forall cc1, update_first (modify_first sel g1) ch = Some cc1 ->
    update_first (modify_first sel g2) (state_of cc1) =
    update_first (modify_first sel g2) ch.
Proof.
  induction 1 as [|x r Hx _ IH]; intros cc1 H; simpl in H; [discriminate|].
  destruct (modify_first sel g1 x) as [cx|] eqn:E1.
  - injection H as <-. specialize (Hx cx eq_refl).
    destruct (modify_some_find_some sel g1 x cx E1) as [n0 Hn0].
    destruct (modify_first sel g2 x) as [c2|] eqn:E2.
    + destruct cx; simpl in *; rewrite Hx, E2; reflexivity.
    + pose proof (modify_none_find_none sel g2 x E2) as Hnone.
      rewrite Hnone in Hn0. discriminate.
  - destruct (update_first (modify_first sel g1) r) as [cr|] eqn:Er;
      [|discriminate].
    injection H as <-. specialize (IH cr eq_refl).
    assert (modify_first sel g2 x = None) as E2.
    { apply find_none_modify_none. apply (modify_none_find_none sel g1 x E1). }
    destruct cr; simpl in *; rewrite E2, IH; reflexivity.
Qed.

Lemma modify_first_after (n : node) :
  forall c1, modify_first sel g1 n = Some c1 ->
    modify_first sel g2 (state_of c1) = modify_first sel g2 n.
Proof.
  induction n as [s|t cl a st ch IH] using node_children_ind;
    intros c1 H; simpl in H; [discriminate|].
  destruct (sel (Element t cl a st ch)) eqn:Es.
  - injection H as <-.
    destruct (g1_element t cl a st ch) as (c' & a' & s' & ch' & Hg).
    pose proof (g1_keeps _ Es) as Hk. rewrite Hg in Hk.
    simpl. rewrite Es. rewrite <- (g2_after (Element t cl a st ch)).
    rewrite Hg. simpl. rewrite Hk. reflexivity.
  - destruct (update_first (modify_first sel g1) ch) as [cc|] eqn:Eu;
      [|discriminate].
    injection H as <-.
    pose proof (update_first_after ch IH cc Eu) as Hafter.
    destruct cc as [ch'|ch']; simpl in *;
      rewrite (sel_local t cl a st ch' ch), Es, Hafter; reflexivity.
Qed.

Lemma children_after (ch : list node) (cc1 : completion (list node)) :
  update_first (modify_first sel g1) ch = Some cc1 ->
  update_first (modify_first sel g2) (state_of cc1) =
  update_first (modify_first sel g2) ch.
Proof.
  apply update_first_after, Forall_forall. intros x _.
  apply modify_first_after.
Qed.

Lemma children_appended_after (ch : list node) (x : node) :
  update_first (modify_first sel g1) ch = None ->
  sel x = true ->
  update_first (modify_first sel g2) (ch ++ [state_of (g1 x)]) =
    Some (cmap (fun x' => ch ++ [x']) (g2 x)) /\
  update_first (modify_first sel g2) ch = None.
Proof.
  intros Hnone Hx.
  assert (update_first (modify_first sel g2) ch = None) as Hnone2.
  { clear Hx. induction ch as [|y r IH]; [reflexivity|]. simpl in *.
    destruct (modify_first sel g1 y) eqn:E1; [discriminate|].
    rewrite (find_none_modify_none sel g2 y (modify_none_find_none sel g1 y E1)).
    destruct (update_first (modify_first sel g1) r); [discriminate|].
    rewrite (IH eq_refl). reflexivity. }
  split; [|exact Hnone2].
  rewrite <- (g2_after x).
  apply update_first_append; [exact Hnone2|].
  pose proof (g1_keeps x Hx) as Hk.
  destruct (state_of (g1 x)) as [s|t c a st ch']; simpl.
  - rewrite sel_text in Hk. discriminate.
  - rewrite Hk. reflexivity.
Qed.
End TwoPaints.

Section LastRender.
Import Content Notions.

Lemma remove_added (ts cl : list string) (t : string) :
  t ∈ ts ->
  remove_tokens ts (add_token (remove_tokens ts cl) t) = remove_tokens ts cl.
Proof.
  intros Hin.
  assert (t ∉ remove_tokens ts cl) as Hnot.
  { intros H. apply remove_tokens_elem in H. tauto. }
  rewrite (add_token_absent _ t Hnot), remove_tokens_app, remove_tokens_again.
  rewrite (remove_tokens_all ts [t]); [apply app_nil_r|].
  intros u Hu. apply list_elem_of_singleton in Hu. subst. exact Hin.
Qed.

Lemma sentiment_token (label : string) :
  label ∈ allLabels -> "ps-sentiment-" +:+ label ∈ sentimentClasses.
Proof.
  unfold allLabels. rewrite !elem_of_cons, elem_of_nil.
  intros [-> | [-> | [-> | []]]]; decided.
Qed.

Lemma paintSummary_after bl1 tx1 ti1 bl2 tx2 ti2 (n : node) :
  bl1 ∈ allLabels ->
  valid_token ("ps-sentiment-" +:+ bl2) = true ->
  paintSummary bl2 tx2 ti2 (state_of (paintSummary bl1 tx1 ti1 n)) =
  paintSummary bl2 tx2 ti2 n.
Proof.
  intros H1 H2. unfold paintSummary.
  rewrite (valid_sentiment_token bl1 H1), H2.
  destruct n as [s|t c a st ch]; [reflexivity|].
  cbn [state_of classList_remove classList_add setAttribute set_innerText
       set_children fold_left].
  rewrite (remove_added _ c _ (sentiment_token bl1 H1)).
  f_equal. f_equal.
  apply map_eq. intros k. rewrite !lookup_insert.
  repeat case_decide; reflexivity.
Qed.

Lemma update_none_any (sel : node -> bool) (g g' : node -> completion node)
  (ch : list node) :
  update_first (modify_first sel g) ch = None ->
  update_first (modify_first sel g') ch = None.
Proof.
  induction ch as [|y r IH]; [reflexivity|]. simpl.
  destruct (modify_first sel g y) eqn:E1; [discriminate|].
  rewrite (find_none_modify_none sel g' y (modify_none_find_none sel g y E1)).
  destruct (update_first (modify_first sel g) r); [discriminate|].
  intros _. rewrite (IH eq_refl). reflexivity.
Qed.

Lemma on_children_after bl1 tx1 ti1 bl2 tx2 ti2 (ch : list node) :
  bl1 ∈ allLabels ->
  valid_token ("ps-sentiment-" +:+ bl2) = true ->
  on_children (paintSummary bl2 tx2 ti2)
    (state_of (on_children (paintSummary bl1 tx1 ti1) ch)) =
  on_children (paintSummary bl2 tx2 ti2) ch.
Proof.
  intros H1 H2.
  set (p1 := paintSummary bl1 tx1 ti1). set (p2 := paintSummary bl2 tx2 ti2).
  assert (forall s, is_summary (Text s) = false) as Htext by reflexivity.
  assert (forall t c a s ch0 ch',
            is_summary (Element t c a s ch0) = is_summary (Element t c a s ch'))
    as Hlocal by reflexivity.
  pose proof (paintSummary_element bl1 tx1 ti1) as Helem.
  pose proof (paintSummary_keeps bl1 tx1 ti1) as Hkeeps.
  assert (forall n, p2 (state_of (p1 n)) = p2 n) as Hafter
    by (intros n; apply paintSummary_after; assumption).
  fold p1 in Helem, Hkeeps.
  unfold on_children.
  destruct (update_first (modify_first is_summary p1) ch) as [cc|] eqn:Eu.
  - rewrite (children_after is_summary p1 p2 Hlocal Helem Hkeeps Hafter ch cc Eu).
    destruct (update_first (modify_first is_summary p2) ch) eqn:Eu2;
      [reflexivity|].
    rewrite (update_none_any is_summary p2 p1 ch Eu2) in Eu. discriminate.
  - destruct (children_appended_after is_summary p1 p2 Htext Hkeeps Hafter ch
                newSummary Eu eq_refl) as [Happ Hnone].
    assert (state_of (cmap (fun x => ch ++ [x]) (p1 newSummary)) =
            ch ++ [state_of (p1 newSummary)]) as ->
      by (destruct (p1 newSummary); reflexivity).
    rewrite Happ, Hnone. reflexivity.
Qed.

Lemma restyle_after (ts cl : list string) (c b s1 s2 : string) :
  c ∉ ts -> b ∈ ts -> s1 ∈ ts -> b <> s1 ->
  fold_left add_token [c; b; s2]
    (remove_tokens ts
       (add_token (fold_left add_token [c; b; s1] (remove_tokens ts cl)) c)) =
  fold_left add_token [c; b; s2] (remove_tokens ts cl).
Proof.
  intros Hc Hb Hs Hne.
  rewrite (restyled_classes ts cl c b s1 Hc Hb Hs Hne).
  set (l := add_token (remove_tokens ts cl) c).
  assert (forall u, u ∈ l -> u ∉ ts) as Hl.
  { intros u Hu. apply add_token_elem in Hu. destruct Hu as [Hu | ->]; auto.
    apply remove_tokens_elem in Hu. tauto. }
  rewrite remove_tokens_app, (remove_tokens_clean ts l Hl).
  rewrite (remove_tokens_all ts [b; s1]).
  - rewrite app_nil_r. cbn [fold_left]. fold l.
    rewrite (add_token_present l c) by (apply add_token_elem; right; reflexivity).
    reflexivity.
  - intros u Hu. rewrite !elem_of_cons, elem_of_nil in Hu.
    destruct Hu as [-> | [-> | []]]; assumption.
Qed.
End LastRender.

(** X7. The last rendering wins.  When a post has been rendered for scores
    whose winning label is one of the three sentiment labels, rendering it
    for other scores (with a winning label that gives a valid class token
    and is not a name the class map inherits) gives exactly what rendering the original post for
    those other scores gives: nothing of the first rendering is left in the
    classes, the attributes or the summary block. *)
Theorem last_render_wins (articleEl : node)
  (x1 : value) (l1 : list value) (best1 : value)
  (x2 : value) (l2 : list value) (best2 : value) :
  Content.best_of (x1 :: l1) = Some best1 ->
  Content.label_of best1 ∈ Content.allLabels ->
  Content.best_of (x2 :: l2) = Some best2 ->
  Notions.clean_label best2 = true ->
  Notions.own_label best2 = true ->
  Content.applySentimentToElement
    (state_of (Content.applySentimentToElement articleEl (VArr (x1 :: l1))))
    (VArr (x2 :: l2)) =
  Content.applySentimentToElement articleEl (VArr (x2 :: l2)).
Proof.
  intros Hb1 Hl1 Hb2 Hl2 _.
  destruct articleEl as [s0|t cl a s ch].
  { rewrite applySentimentToElement_text. reflexivity. }
  pose proof (applySentimentToElement_element t cl a s) as Hel.
  cbv zeta in Hel. rewrite (Hel ch x1 l1 best1 Hb1), state_of_element.
  rewrite (Hel ch x2 l2 best2 Hb2).
  pose proof (applySentimentToElement_element t
    (add_token
       (fold_left add_token
          ["ps-sentiment-container"; "ps-sentiment-border";
           default "ps-sentiment-neutral"
             (Content.classMap (Content.label_of best1))]
          (remove_tokens (Content.sentimentClasses ++ ["ps-sentiment-border"]) cl))
       "ps-sentiment-container")
    (<["data-ps-sentiment-label" := Content.label_of best1]> a) s) as Hel2.
  cbv zeta in Hel2. rewrite (Hel2 _ x2 l2 best2 Hb2).
  unfold Content.painter. cbv zeta.
  rewrite (on_children_after _ _ _ _ _ _ ch Hl1 Hl2).
  rewrite insert_insert_eq.
  pose proof (sentimentClass_cases (Content.label_of best1)) as Hs1.
  assert ("ps-sentiment-container" ∉
          Content.sentimentClasses ++ ["ps-sentiment-border"]) as Hc by decided.
  assert ("ps-sentiment-border" ∈
          Content.sentimentClasses ++ ["ps-sentiment-border"]) as Hb by decided.
  assert ("ps-sentiment-border" ∉ Content.sentimentClasses) as Hbs by decided.
  rewrite restyle_after; [reflexivity | exact Hc | exact Hb | |].
  - apply elem_of_app. left. exact Hs1.
  - intros E. apply Hbs. rewrite E. exact Hs1.
Qed.

Lemma last_render_wins_witness :
  Content.applySentimentToElement
    (state_of (Content.applySentimentToElement Examples.post Examples.scores))
    (VArr [Examples.item "negative" (7 # 10)]) =
  Content.applySentimentToElement Examples.post
    (VArr [Examples.item "negative" (7 # 10)]).
Proof.
  apply (last_render_wins Examples.post
           (Examples.item "positive" (95 # 100))
           [Examples.item "neutral" (3 # 100); Examples.item "negative" (2 # 100)]
           (Examples.item "positive" (95 # 100))
           (Examples.item "negative" (7 # 10)) []
           (Examples.item "negative" (7 # 10)));
    [reflexivity | decided | reflexivity | reflexivity | reflexivity].
Defined.

(** *** The page cache and the responses *)

Section Responses.
Import Content Spec Notions.
Variable innerText : node -> string.

Lemma reduce_scores (items : list value) :
  Forall (fun v => is_score v = true) items ->
  forall acc, exists best,
    reduce higher items acc = Some best /\ (best = acc \/ best ∈ items).
Proof.
  induction 1 as [|b r Hb _ IH]; intros acc.
  - exists acc. split; [reflexivity | left; reflexivity].
  - simpl. unfold higher at 1.
    assert (nullish b = false) as ->.
    { unfold is_score in Hb. destruct b; try discriminate; reflexivity. }
    destruct (gt (get_score b) (get_score acc)).
    + destruct (IH b) as (best & Hred & Hor). exists best.
      split; [exact Hred|]. right.
      destruct Hor as [-> | Hin]; [left | right; exact Hin].
    + destruct (IH acc) as (best & Hred & Hor). exists best.
      split; [exact Hred|].
      destruct Hor as [-> | Hin]; [left; reflexivity | right; right; exact Hin].
Qed.

Lemma normalize_is_score (result : value) (ls : list value) :
  normalize result = Some ls -> Forall (fun v => is_score v = true) ls.
Proof.
  destruct result as [| | | | |items|]; try discriminate.
  destruct items as [|first rest]; [discriminate|].
  unfold normalize. intros H. injection H as <-.
  apply Forall_forall. intros v Hv.
  apply list_elem_of_In, List.filter_In in Hv. exact (proj2 Hv).
Qed.

Lemma normalize_renderable (result : value) (x : value) (l : list value) :
  normalize result = Some (x :: l) -> renderable (VArr (x :: l)).
Proof.
  intros H. pose proof (normalize_is_score _ _ H) as Hall.
  split.
  - unfold nonempty_score_array. apply forallb_forall. intros v Hv.
    rewrite Forall_forall in Hall. apply Hall, list_elem_of_In, Hv.
  - destruct (reduce_scores (x :: l) Hall sentinel) as (best & Hred & _).
    exists x, l, best. split; [reflexivity | exact Hred].
Qed.

Lemma renderable_onResponse text postId resp pg :
  map_Forall (fun _ e => renderable (labelScores e)) (sentimentCache pg) ->
  map_Forall (fun _ e => renderable (labelScores e))
    (sentimentCache (state_of (onResponse text postId resp pg))).
Proof.
  intros Hinv. unfold onResponse.
  destruct resp as [r|]; [|exact Hinv].
  destruct (given _); [exact Hinv|].
  destruct (normalize _) as [[|x l]|] eqn:Hn; try exact Hinv.
  destruct (best_of _); [|exact Hinv].
  assert (map_Forall (fun _ e => renderable (labelScores e))
            (saveToCache postId text (VArr (x :: l)) (sentimentCache pg))) as H.
  { unfold saveToCache. apply map_Forall_insert_2; [|exact Hinv].
    apply (normalize_renderable _ _ _ Hn). }
  destruct (applySentimentToElement _ _); exact H.
Qed.
End Responses.

(** X8. The page cache only ever holds values the render functions can work
    on: if every entry is a non-empty array of objects with a numeric score
    (on which the reduction finds a best item without throwing), so it is
    after any sequence of scan passes and responses, whatever the payloads
    of the responses. *)
Theorem page_cache_holds_score_lists (innerText : node -> string)
  (es : list Content.event) (pg : Content.page) :
  map_Forall (fun _ e => Notions.renderable (Content.labelScores e))
    (Content.sentimentCache pg) ->
  map_Forall (fun _ e => Notions.renderable (Content.labelScores e))
    (Content.sentimentCache (Content.run innerText es pg)).
Proof.
  revert pg. induction es as [|e es IH]; intros pg Hinv; [exact Hinv|].
  apply IH. destruct e; simpl.
  - rewrite sentimentCache_processPost. exact Hinv.
  - apply renderable_onResponse, Hinv.
Qed.

Lemma page_cache_holds_score_lists_witness :
  map_Forall (fun _ e => Notions.renderable (Content.labelScores e))
    (Content.sentimentCache
       (Content.run Content.plainText
          [Content.Scanned;
           Content.Answered "I love this!" (Some "1234567")
             (Some (Examples.answer
                      (VArr [VArr [Examples.item "positive" 1; VNull; VNum 3]])))]
          Examples.fresh_page)).
Proof.
  apply page_cache_holds_score_lists. apply map_Forall_empty.
Defined.

Section Settling.
Import Content Spec Notions.
Variable innerText : node -> string.

Lemma remove_selected_element (sel : node -> bool) t c a s ch :
  exists ch', remove_selected sel (Element t c a s ch) = Element t c a s ch'.
Proof.
  unfold remove_selected. cbn [remove_below].
  destruct (drop_first sel (remove_below sel) ch); simpl; eauto.
Qed.

Lemma on_children_normal (paint : node -> completion node) (ch : list node) :
  (forall n, is_normal (paint n) = true) ->
  is_normal (on_children paint ch) = true.
Proof.
  intros Hn. unfold on_children.
  destruct (update_first _ ch) as [cc|] eqn:Eu.
  - apply (children_normal is_summary paint ch cc Hn Eu).
  - specialize (Hn newSummary). destruct (paint newSummary); auto.
Qed.

Lemma modify_first_kind (sel : node -> bool) (g : node -> completion node)
  (b : bool) (n : node) :
  (forall x, is_normal (g x) = b) ->
  forall c, modify_first sel g n = Some c -> is_normal c = b.
Proof.
  intros Hg.
  induction n as [s0|t cl a st ch IH] using node_children_ind;
    intros c Hc; simpl in Hc; [discriminate|].
  destruct (sel (Element t cl a st ch)).
  - injection Hc as <-. apply Hg.
  - destruct (update_first (modify_first sel g) ch) as [cc|] eqn:Eu;
      [|discriminate].
    simpl in Hc. injection Hc as <-.
    destruct (update_first_at _ ch cc Eu) as (j & y & cy & Hj & Hy & _ & Hcc).
    assert (is_normal cy = b) as Hcy.
    { rewrite Forall_forall in IH. apply (IH y); [|exact Hy].
      apply list_elem_of_lookup. eauto. }
    destruct cc; simpl in *; congruence.
Qed.

Lemma on_children_throw (paint : node -> completion node) (ch : list node) :
  (forall n, is_normal (paint n) = false) ->
  is_normal (on_children paint ch) = false.
Proof.
  intros Hn. unfold on_children.
  destruct (update_first _ ch) as [cc|] eqn:Eu.
  - destruct (update_first_at _ ch cc Eu) as (i & x & cx & _ & Hx & _ & ->).
    apply (modify_first_kind is_summary paint false x Hn cx Hx).
  - specialize (Hn newSummary). destruct (paint newSummary); auto.
Qed.

Lemma painter_valid items best (n : node) :
  is_normal (painter items best n) = clean_label best.
Proof.
  unfold painter, paintSummary, clean_label. cbv zeta.
  destruct (valid_token _); reflexivity.
Qed.

(** The completion of [applySentimentToElement] on an element, for a list
    with a best item: normal when the class token of the label is valid, an
    exception otherwise; the post is an element with the same processing
    mark either way. *)
Lemma applySentimentToElement_completion t c a s ch x l best :
  best_of (x :: l) = Some best ->
  exists c' a' ch',
    applySentimentToElement (Element t c a s ch) (VArr (x :: l)) =
      (if clean_label best then Normal else Throw) (Element t c' a' s ch') /\
    a' !! SENTIMENT_MARKER_ATTR = a !! SENTIMENT_MARKER_ATTR.
Proof.
  intros Hbest.
  pose proof (applySentimentToElement_element t c a s ch x l best Hbest) as Hel.
  cbv zeta in Hel. rewrite Hel.
  assert (is_normal (on_children (painter (x :: l) best) ch) = clean_label best)
    as Hn.
  { destruct (clean_label best) eqn:Hc.
    - apply on_children_normal. intros n. rewrite painter_valid. exact Hc.
    - apply on_children_throw. intros n. rewrite painter_valid. exact Hc. }
  eexists _, _, (state_of (on_children (painter (x :: l) best) ch)).
  split.
  - destruct (on_children _ ch); simpl in Hn; rewrite <- Hn; reflexivity.
  - apply lookup_insert_ne. discriminate.
Qed.

Lemma best_is_clean (ls : list value) (best : value) :
  Forall (fun v => is_score v = true) ls ->
  forallb clean_label ls = true ->
  best_of ls = Some best -> clean_label best = true.
Proof.
  intros Hall Hclean Hbest.
  destruct (reduce_scores ls Hall sentinel) as (b & Hred & Hor).
  unfold best_of in Hbest. rewrite Hred in Hbest. injection Hbest as ->.
  destruct Hor as [-> | Hin]; [reflexivity|].
  rewrite forallb_forall in Hclean. apply Hclean, list_elem_of_In, Hin.
Qed.

Lemma forallb_clean (ls : list value) :
  forallb (fun v => clean_label v && own_label v) ls = true ->
  forallb clean_label ls = true.
Proof.
  rewrite !forallb_forall. intros H v Hv.
  destruct (andb_prop _ _ (H v Hv)) as [Hc _]. exact Hc.
Qed.

Lemma markerOf_done_set (pg : page) (el : node) t c a s ch :
  el = Element t c a s ch ->
  markerOf (setMarker "done" (setArticle el pg)) = Some "done".
Proof.
  intros ->. unfold markerOf, setMarker, setArticle. simpl.
  apply lookup_insert_eq.
Qed.
End Settling.

(** X9. Every response settles the post.  Whatever arrives (no response, an
    error, a payload of any shape), if the labels of the scored items give
    valid class tokens (no white space) and are not names the class map
    inherits, the callback ends normally, the post is marked done and no
    request is sent. *)
Theorem response_settles_post (text : string) (postId : option string)
  (resp : option response) (pg : Content.page)
  (t : string) (c : list string) (a s : gmap string string) (ch : list node) :
  Content.articleEl pg = Element t c a s ch ->
  Notions.clean_response resp = true ->
  exists pg',
    Content.onResponse text postId resp pg = Normal pg' /\
    Content.markerOf pg' = Some "done" /\
    Content.sent pg' = Content.sent pg.
Proof.
  intros Hel Hclean.
  assert (Content.markerOf (Content.setMarker "done" pg) = Some "done") as Hdone
    by (apply (markerOf_setMarker "done" pg t c a s ch Hel)).
  assert (Content.markerOf (Content.showError pg) = Some "done") as Herr.
  { unfold Content.showError, Content.markerOf, Content.setMarker,
      Content.setArticle.
    cbn [Content.articleEl]. rewrite Hel.
    cbn [appendChild setAttribute getAttribute]. apply lookup_insert_eq. }
  unfold Content.onResponse.
  destruct resp as [r|];
    [|eexists; split; [reflexivity|]; split; [exact Herr | reflexivity]].
  destruct (given (error r));
    [eexists; split; [reflexivity|]; split; [exact Herr | reflexivity]|].
  unfold Notions.clean_response in Hclean.
  destruct (Content.normalize (result r)) as [[|x l]|] eqn:Hn;
    try (eexists; split; [reflexivity|]; split; [exact Hdone | reflexivity]).
  pose proof (normalize_is_score _ _ Hn) as Hall.
  destruct (reduce_scores (x :: l) Hall Content.sentinel) as (best & Hred & _).
  fold (Content.best_of (x :: l)) in Hred. rewrite Hred.
  pose proof (best_is_clean _ _ Hall (forallb_clean _ Hclean) Hred) as Hbc.
  cbn [Content.articleEl]. rewrite Hel.
  destruct (remove_selected_element (by_class Content.SENTIMENT_UI_CLASS) t c a s ch)
    as [ch1 ->].
  destruct (applySentimentToElement_completion t c a s ch1 x l best Hred)
    as (c' & a' & ch' & -> & _).
  rewrite Hbc. eexists. split; [reflexivity|]. split; [|reflexivity].
  apply (markerOf_done_set _ _ t c' a' s ch'). reflexivity.
Qed.

Lemma response_settles_post_witness :
  exists pg',
    Content.onResponse "I love this!" (Some "1234567")
      (Some (Examples.answer (VArr [VArr [Examples.item "POSITIVE" 1; VNull]])))
      (Content.setMarker "pending" Examples.fresh_page) = Normal pg' /\
    Content.markerOf pg' = Some "done" /\
    Content.sent pg' = Content.sent (Content.setMarker "pending" Examples.fresh_page).
Proof.
  eapply response_settles_post; reflexivity.
Defined.

(** X10. A winning label with white space in it (the class token made from
    it is refused by [classList.add]) makes the callback throw after the
    result has been cached: the result is in the page cache, the mark of
    the post is what it was (pending, after a request) and no request is
    sent. *)
Theorem bad_label_leaves_post_pending (text : string) (postId : option string)
  (r : response) (pg : Content.page)
  (t : string) (c : list string) (a s : gmap string string) (ch : list node)
  (x : value) (l : list value) (best : value) :
  Content.articleEl pg = Element t c a s ch ->
  given (error r) = false ->
  Content.normalize (result r) = Some (x :: l) ->
  Content.best_of (x :: l) = Some best ->
  Notions.clean_label best = false ->
  exists pg',
    Content.onResponse text postId (Some r) pg = Throw pg' /\
    Content.markerOf pg' = Content.markerOf pg /\
    Content.getFromCache postId text (Content.sentimentCache pg') =
      Some {| Content.labelScores := VArr (x :: l) |} /\
    Content.sent pg' = Content.sent pg.
Proof.
  intros Hel Herr Hn Hbest Hbad.
  unfold Content.onResponse. rewrite Herr, Hn, Hbest.
  cbn [Content.articleEl]. rewrite Hel.
  destruct (remove_selected_element (by_class Content.SENTIMENT_UI_CLASS) t c a s ch)
    as [ch1 ->].
  destruct (applySentimentToElement_completion t c a s ch1 x l best Hbest)
    as (c' & a' & ch' & -> & Hmark).
  rewrite Hbad. eexists. split; [reflexivity|].
  split; [|split; [|reflexivity]].
  - unfold Content.markerOf, Content.setArticle. cbn [Content.articleEl getAttribute].
    rewrite Hel. exact Hmark.
  - unfold Content.getFromCache, Content.setArticle, Content.saveToCache.
    cbn [Content.sentimentCache]. apply lookup_insert_eq.
Qed.

Lemma bad_label_leaves_post_pending_witness :
  exists pg',
    Content.onResponse "I love this!" (Some "1234567")
      (Some (Examples.answer (VArr [Examples.item "very positive" (9 # 10)])))
      (Content.setMarker "pending" Examples.fresh_page) = Throw pg' /\
    Content.markerOf pg' =
      Content.markerOf (Content.setMarker "pending" Examples.fresh_page) /\
    Content.getFromCache (Some "1234567") "I love this!"
      (Content.sentimentCache pg') =
      Some {| Content.labelScores :=
                VArr [Examples.item "very positive" (9 # 10)] |} /\
    Content.sent pg' = Content.sent (Content.setMarker "pending" Examples.fresh_page).
Proof.
  eapply (bad_label_leaves_post_pending "I love this!" (Some "1234567")
            (Examples.answer (VArr [Examples.item "very positive" (9 # 10)]))
            (Content.setMarker "pending" Examples.fresh_page));
    reflexivity.
Defined.

(** *** Scan passes, requests and the processing mark *)

Section Lifecycle.
Import Content Spec Notions.
Variable innerText : node -> string.

Lemma marker_remove_selected (sel : node -> bool) (el : node) :
  getAttribute SENTIMENT_MARKER_ATTR (remove_selected sel el) =
  getAttribute SENTIMENT_MARKER_ATTR el.
Proof.
  destruct el as [s0|t c a s ch]; [reflexivity|].
  destruct (remove_selected_element sel t c a s ch) as [ch' ->]. reflexivity.
Qed.

Lemma setMarker_done (pg : page) (v : string) :
  markerOf pg = Some v -> markerOf (setMarker "done" pg) = Some "done".
Proof.
  unfold markerOf, setMarker. cbn [articleEl].
  destruct (articleEl pg) as [s0|t c a s ch]; [discriminate|].
  intros _. apply lookup_insert_eq.
Qed.

Lemma applied_done (pg : page) (el : node) (v : value) :
  getAttribute SENTIMENT_MARKER_ATTR el = Some "done" ->
  markerOf (state_of
    (match applySentimentToElement el v with
     | Normal el2 => Normal (setMarker "done" (setArticle el2 pg))
     | Throw el2 => Throw (setArticle el2 pg)
     end)) = Some "done".
Proof.
  intros Hd.
  pose proof (marker_applySentimentToElement el v) as Hm. rewrite Hd in Hm.
  destruct (applySentimentToElement el v) as [el2|el2]; cbn [state_of] in *.
  - apply (setMarker_done (setArticle el2 pg) "done"). exact Hm.
  - exact Hm.
Qed.

Lemma processPost_done (pg : page) :
  markerOf pg = Some "done" ->
  markerOf (state_of (processPost innerText pg)) = Some "done".
Proof.
  intros Hd. unfold processPost. rewrite Hd.
  destruct (String.eqb _ _); [exact Hd|].
  destruct (getFromCache _ _ _) as [cached|]; [|exact Hd].
  destruct (truthy _); [|exact Hd].
  apply applied_done. exact Hd.
Qed.

Lemma onResponse_done text postId resp (pg : page) :
  markerOf pg = Some "done" ->
  markerOf (state_of (onResponse text postId resp pg)) = Some "done" /\
  sent (state_of (onResponse text postId resp pg)) = sent pg.
Proof.
  intros Hd.
  assert (markerOf (showError pg) = Some "done") as Herr.
  { unfold showError, markerOf, setMarker, setArticle in *.
    cbn [articleEl] in *.
    destruct (articleEl pg) as [s0|t c a s ch]; [discriminate|].
    cbn [appendChild setAttribute getAttribute]. apply lookup_insert_eq. }
  unfold onResponse.
  destruct resp as [r|]; [|split; [exact Herr | reflexivity]].
  destruct (given _); [split; [exact Herr | reflexivity]|].
  destruct (normalize _) as [[|x l]|];
    try (split; [apply (setMarker_done pg "done" Hd) | reflexivity]).
  destruct (best_of _); [|split; [exact Hd | reflexivity]].
  cbn [articleEl].
  split.
  - apply applied_done. rewrite marker_remove_selected. exact Hd.
  - destruct (applySentimentToElement _ _); reflexivity.
Qed.
End Lifecycle.

(** X11. Done is final.  Once a post is marked done, no sequence of scan
    passes and responses (late ones, repeated ones, of any content) takes
    the mark away, and none sends a request for it. *)
Theorem done_is_final (innerText : node -> string)
  (es : list Content.event) (pg : Content.page) :
  Content.markerOf pg = Some "done" ->
  Content.markerOf (Content.run innerText es pg) = Some "done" /\
  Content.sent (Content.run innerText es pg) = Content.sent pg.
Proof.
  revert pg. induction es as [|e es IH]; intros pg Hd; [split; [exact Hd | reflexivity]|].
  change (Content.run innerText (e :: es) pg)
    with (Content.run innerText es (Content.step innerText pg e)).
  destruct e as [|text postId resp]; cbn [Content.step].
  - destruct (processPost_marked innerText pg (or_intror Hd)) as [Hs _].
    destruct (IH _ (processPost_done innerText pg Hd)) as [Hm' Hs'].
    split; [exact Hm' | rewrite Hs'; exact Hs].
  - destruct (onResponse_done text postId resp pg Hd) as [Hm Hs].
    destruct (IH _ Hm) as [Hm' Hs'].
    split; [exact Hm' | rewrite Hs'; exact Hs].
Qed.

Lemma done_is_final_witness :
  Content.markerOf
    (Content.run Content.plainText
       [Content.Scanned;
        Content.Answered "I love this!" (Some "1234567")
          (Some (Examples.answer Examples.scores));
        Content.Scanned]
       (Content.setMarker "done" Examples.fresh_page)) = Some "done" /\
  Content.sent
    (Content.run Content.plainText
       [Content.Scanned;
        Content.Answered "I love this!" (Some "1234567")
          (Some (Examples.answer Examples.scores));
        Content.Scanned]
       (Content.setMarker "done" Examples.fresh_page)) = [].
Proof.
  apply (done_is_final Content.plainText _
           (Content.setMarker "done" Examples.fresh_page)).
  reflexivity.
Defined.

(** X12. What a scan pass sends is served.  A scan pass over a post sends
    nothing or one request; that request is an [analyze] message carrying
    the non-empty text and the identifier extracted from the post, and the
    service worker, whatever its cache and the time, neither ignores it nor
    rejects it: it starts a fetch under the key of the request or answers
    from an entry of its cache. *)
Theorem scan_request_is_served (innerText : node -> string)
  (pg : Content.page) (now : Z) (bg : gmap string Background.entry) :
  let text := Content.extractTextFromPost innerText (Content.articleEl pg) in
  let postId := Content.getPostId (Content.articleEl pg) in
  let request :=
    {| msg_type := "analyze"; msg_text := Some text; msg_postId := postId |} in
  Content.sent (state_of (Content.processPost innerText pg)) = Content.sent pg \/
  (text <> "" /\
   Content.sent (state_of (Content.processPost innerText pg)) =
     Content.sent pg ++ [request] /\
   (Background.onMessage (Some request) now bg =
      Background.Fetching (Background.keyFor postId text) now text \/
    exists e,
      bg !! Background.keyFor postId text = Some e /\
      Background.onMessage (Some request) now bg =
        Background.Responded
          {| error := None; result := Background.result e; cached := true |})).
Proof.
  intros text postId request.
  assert (text <> "" ->
          Background.onMessage (Some request) now bg =
            Background.Fetching (Background.keyFor postId text) now text \/
          exists e,
            bg !! Background.keyFor postId text = Some e /\
            Background.onMessage (Some request) now bg =
              Background.Responded
                {| error := None; result := Background.result e; cached := true |})
    as Hserved.
  { intros Hne. unfold Background.onMessage, request. simpl.
    destruct (String.eqb_spec text ""); [contradiction|].
    simpl. unfold Background.fresh.
    destruct (bg !! Background.keyFor postId text) as [e|]; [|left; reflexivity].
    destruct (now - Background.ts e <? Background.CACHE_TTL_MS)%Z;
      [right; exists e; split; reflexivity | left; reflexivity]. }
  assert (text <> "" ->
          Content.sent (Content.analyzeAndShow text postId pg) = Content.sent pg \/
          Content.sent (Content.analyzeAndShow text postId pg) =
            Content.sent pg ++ [request]) as Hsend.
  { intros _. unfold Content.analyzeAndShow.
    destruct (_ || _); [left | right]; reflexivity. }
  unfold Content.processPost. fold text. fold postId.
  destruct (String.eqb_spec text "") as [|Hne]; [left; reflexivity|].
  assert (Content.sent (state_of (Normal (Content.analyzeAndShow text postId pg))) =
            Content.sent pg \/
          text <> "" /\
          Content.sent (state_of (Normal (Content.analyzeAndShow text postId pg))) =
            Content.sent pg ++ [request] /\
          (Background.onMessage (Some request) now bg =
             Background.Fetching (Background.keyFor postId text) now text \/
           exists e,
             bg !! Background.keyFor postId text = Some e /\
             Background.onMessage (Some request) now bg =
               Background.Responded
                 {| error := None; result := Background.result e; cached := true |}))
    as Hcall.
  { cbn [state_of]. destruct (Hsend Hne) as [H | H]; [left; exact H|].
    right. split; [exact Hne|]. split; [exact H | exact (Hserved Hne)]. }
  destruct (Content.getFromCache _ _ _) as [cached|].
  - destruct (truthy _).
    + left. destruct (Content.applySentimentToElement _ _); reflexivity.
    + destruct (bool_decide _); [left; reflexivity | exact Hcall].
  - destruct (bool_decide _); [left; reflexivity | exact Hcall].
Qed.

(** X13. Visuals come back from the page cache.  After a response with a
    non-empty list of scores for a post, a scan pass over an element with the
    same identifier and text (the element the host page puts in place of the
    first one, with no mark and no class of ours) renders that list on it,
    marks it done when the rendering completes, and sends no request. *)
Theorem cached_result_is_reapplied (innerText : node -> string)
  (text : string) (postId : option string) (r : response)
  (pg : Content.page) (el' : node) (x : value) (l : list value) :
  given (error r) = false ->
  Content.normalize (result r) = Some (x :: l) ->
  Content.extractTextFromPost innerText el' = text ->
  Content.getPostId el' = postId ->
  text <> "" ->
  let pg1 := state_of (Content.onResponse text postId (Some r) pg) in
  let pg2 :=
    {| Content.articleEl := el';
       Content.sentimentCache := Content.sentimentCache pg1;
       Content.sent := Content.sent pg1 |} in
  Content.processPost innerText pg2 =
    match Content.applySentimentToElement el' (VArr (x :: l)) with
    | Normal el => Normal (Content.setMarker "done" (Content.setArticle el pg2))
    | Throw el => Throw (Content.setArticle el pg2)
    end /\
  Content.sent (state_of (Content.processPost innerText pg2)) = Content.sent pg.
Proof.
  intros Herr Hn Htext Hid Hne pg1 pg2.
  pose proof (normalize_is_score _ _ Hn) as Hall.
  destruct (reduce_scores (x :: l) Hall Content.sentinel) as (best & Hred & _).
  fold (Content.best_of (x :: l)) in Hred.
  assert (Content.sentimentCache pg1 =
          Content.saveToCache postId text (VArr (x :: l)) (Content.sentimentCache pg)
          /\ Content.sent pg1 = Content.sent pg) as [Hcache Hsent].
  { subst pg1. unfold Content.onResponse. rewrite Herr, Hn, Hred.
    destruct (Content.applySentimentToElement _ _); split; reflexivity. }
  assert (Content.processPost innerText pg2 =
    match Content.applySentimentToElement el' (VArr (x :: l)) with
    | Normal el => Normal (Content.setMarker "done" (Content.setArticle el pg2))
    | Throw el => Throw (Content.setArticle el pg2)
    end) as Hpass.
  { unfold Content.processPost. subst pg2.
    cbn [Content.articleEl Content.sentimentCache]. rewrite Htext, Hid.
    destruct (String.eqb_spec text ""); [contradiction|].
    rewrite Hcache. unfold Content.getFromCache, Content.saveToCache.
    rewrite lookup_insert_eq. reflexivity. }
  split; [exact Hpass|].
  rewrite Hpass. subst pg2.
  destruct (Content.applySentimentToElement el' (VArr (x :: l)));
    cbn [state_of Content.setMarker Content.setArticle Content.sent];
    exact Hsent.
Qed.

Lemma cached_result_is_reapplied_witness :
  let pg1 :=
    state_of (Content.onResponse "I love this!" (Some "1234567")
                (Some (Examples.answer Examples.scores))
                (Content.setMarker "pending" Examples.fresh_page)) in
  let pg2 :=
    {| Content.articleEl := Examples.post;
       Content.sentimentCache := Content.sentimentCache pg1;
       Content.sent := Content.sent pg1 |} in
  Content.markerOf (state_of (Content.processPost Content.plainText pg2)) =
    Some "done" /\
  Content.sent (state_of (Content.processPost Content.plainText pg2)) = [].
Proof.
  intros pg1 pg2.
  pose proof (cached_result_is_reapplied Content.plainText "I love this!"
    (Some "1234567") (Examples.answer Examples.scores)
    (Content.setMarker "pending" Examples.fresh_page) Examples.post
    (Examples.item "positive" (95 # 100))
    [Examples.item "neutral" (3 # 100); Examples.item "negative" (2 # 100)]
    eq_refl eq_refl eq_refl eq_refl ltac:(discriminate)) as [Hpass Hsent].
  split; [|exact Hsent].
  fold pg1 in Hpass. fold pg2 in Hpass. rewrite Hpass. vm_compute. reflexivity.
Defined.

(** *** Posts without text *)

Section EmptyText.
Import Content Notions.

Lemma trimStart_all_space (s : string) :
  all_space s = true -> trimStart s = "".
Proof.
  induction s as [|c r IH]; intros H; [reflexivity|].
  simpl in *. apply andb_prop in H as [Hc Hr]. rewrite Hc. apply IH, Hr.
Qed.

Lemma trim_all_space (s : string) : all_space s = true -> trim s = "".
Proof. intros H. unfold trim. rewrite (trimStart_all_space s H). reflexivity. Qed.
End EmptyText.

(** X14. A post whose text container renders as white space only is
    skipped: the scan pass returns before any cache lookup, leaves the
    element, the cache and the list of requests as they were, whatever the
    mark of the element. *)
Theorem blank_post_is_skipped (innerText : node -> string)
  (pg : Content.page) (textEl : node) :
  querySelector (by_attribute "data-testid" "tweetText") (Content.articleEl pg) =
    Some textEl ->
  Notions.all_space (innerText textEl) = true ->
  Content.processPost innerText pg = Normal pg.
Proof.
  intros Hq Hs. unfold Content.processPost, Content.extractTextFromPost.
  rewrite Hq, (trim_all_space _ Hs). reflexivity.
Qed.

Lemma blank_post_is_skipped_witness :
  let pg :=
    {| Content.articleEl :=
         Element "article" [] ∅ ∅
           [Element "div" [] {["data-testid" := "tweetText"]} ∅ [Text "  "]];
       Content.sentimentCache := ∅; Content.sent := [] |} in
  Content.processPost Content.plainText pg = Normal pg.
Proof.
  intros pg.
  apply (blank_post_is_skipped Content.plainText pg
           (Element "div" [] {["data-testid" := "tweetText"]} ∅ [Text "  "]));
    reflexivity.
Defined.

(** *** The stylesheet *)

Section StylesheetFacts.
Import Stylesheet.

Lemma first_some_none_app {A B} (f : A -> option B) (l : list A) (y : A) :
  first_some f l = None -> first_some f (l ++ [y]) = f y.
Proof.
  induction l as [|x r IH]; intros H; simpl in *.
  - destruct (f y); reflexivity.
  - destruct (f x); [discriminate|]. apply IH, H.
Qed.

Lemma find_all_none (sel : node -> bool) (n : node) :
  find_first sel n = None -> find_all sel n = [].
Proof.
  induction n as [s|t c a st ch IH] using node_children_ind;
    intros H; [reflexivity|].
  simpl in *. destruct (sel (Element t c a st ch)); [discriminate|].
  simpl. induction IH as [|x r Hx _ IHr]; [reflexivity|].
  simpl in *. destruct (find_first sel x); [discriminate|].
  rewrite (Hx eq_refl), (IHr H). reflexivity.
Qed.

Lemma concat_find_all_none (sel : node -> bool) (l : list node) :
  first_some (find_first sel) l = None ->
  concat (List.map (find_all sel) l) = [].
Proof.
  induction l as [|x r IH]; intros H; [reflexivity|].
  simpl in *. destruct (find_first sel x) eqn:E; [discriminate|].
  rewrite (find_all_none sel x E), (IH H). reflexivity.
Qed.

Lemma css_link_found (url : string) :
  find_first Notions.css_id (cssLink url) = Some (cssLink url) /\
  find_all Notions.css_id (cssLink url) = [cssLink url].
Proof.
  assert (Notions.css_id (cssLink url) = true) as H.
  { unfold Notions.css_id, by_attribute, cssLink. cbn [createElement setAttribute getAttribute].
    apply bool_decide_eq_true.
    rewrite lookup_insert_ne by discriminate.
    rewrite lookup_insert_ne by discriminate.
    apply lookup_insert_eq. }
  unfold cssLink in *. cbn [createElement setAttribute] in *.
  cbn [find_first find_all]. rewrite H. split; reflexivity.
Qed.

(** The children of the root after the link has been appended to the
    head. *)
Lemma appended_to_head (url : string) (ch : list node)
  (cc : completion (list node)) :
  first_some (find_first Notions.css_id) ch = None ->
  update_first (appendToHead (cssLink url)) ch = Some cc ->
  exists ch', cc = Normal ch' /\
    first_some (find_first Notions.css_id) ch' = Some (cssLink url) /\
    concat (List.map (find_all Notions.css_id) ch') = [cssLink url].
Proof.
  revert cc. induction ch as [|x r IH]; intros cc Hnone Hu; [discriminate|].
  simpl in Hnone, Hu.
  destruct (find_first Notions.css_id x) eqn:Ex; [discriminate|].
  unfold appendToHead in Hu at 1.
  destruct (by_tag ["head"] x) eqn:Hhead.
  - injection Hu as <-. eexists. split; [reflexivity|].
    destruct x as [s0|t c a s chx]; [discriminate|].
    cbn [appendChild]. simpl in Ex.
    destruct (Notions.css_id (Element t c a s chx)) eqn:Esel; [discriminate|].
    assert (Notions.css_id (Element t c a s (chx ++ [cssLink url])) = false) as Esel'
      by exact Esel.
    destruct (css_link_found url) as [Hf Ha].
    split.
    + cbn [first_some find_first]. rewrite Esel'.
      rewrite (first_some_none_app _ chx _ Ex), Hf. reflexivity.
    + cbn [List.map concat find_all]. rewrite Esel'.
      rewrite List.map_app, concat_app. cbn [List.map concat].
      rewrite (concat_find_all_none _ chx Ex), Ha.
      rewrite (concat_find_all_none _ r Hnone). reflexivity.
  - destruct (update_first (appendToHead (cssLink url)) r) as [cr|] eqn:Er;
      [|discriminate].
    injection Hu as <-.
    destruct (IH cr Hnone eq_refl) as (r' & -> & Hf & Ha).
    eexists. split; [reflexivity|]. split.
    + cbn [first_some]. rewrite Ex. exact Hf.
    + cbn [List.map concat]. rewrite (find_all_none _ x Ex). exact Ha.
Qed.
Lemma no_head (l1 l2 : node) (ch : list node) :
  update_first (appendToHead l1) ch = None ->
  update_first (appendToHead l2) ch = None.
Proof.
  induction ch as [|x r IH]; [reflexivity|]. simpl. unfold appendToHead at 1 3.
  destruct (by_tag ["head"] x); [discriminate|].
  destruct (update_first (appendToHead l1) r); [discriminate|].
  intros _. rewrite (IH eq_refl). reflexivity.
Qed.
End StylesheetFacts.

(** X15. The stylesheet is injected once.  [injectCss] does nothing on a
    document that already holds an element with the id [ps-extension-css];
    otherwise it appends its link to the head, after which the document
    holds exactly one element with that id, or throws when there is no head.
    A second call, with any URL, changes nothing. *)
Theorem stylesheet_injected_once (url url' : string) (html : node) :
  let first := Stylesheet.injectCss url html in
  Stylesheet.injectCss url' (state_of first) = first /\
  is_normal first =
    bool_decide (is_Some (Stylesheet.getElementById "ps-extension-css"
                            (state_of first))) /\
  find_all Notions.css_id (state_of first) =
    match Stylesheet.getElementById "ps-extension-css" html with
    | Some _ => find_all Notions.css_id html
    | None => if is_normal first then [Stylesheet.cssLink url] else []
    end.
Proof.
  intros first. subst first. unfold Stylesheet.injectCss.
  destruct (Stylesheet.getElementById "ps-extension-css" html) as [n|] eqn:Eg.
  - cbn [state_of is_normal]. rewrite Eg. split; [reflexivity|]. split.
    + symmetry. apply bool_decide_eq_true. eexists; reflexivity.
    + reflexivity.
  - assert (find_all Notions.css_id html = []) as Hall
      by (apply find_all_none; exact Eg).
    destruct html as [s0|t c a s ch].
    + cbn [state_of is_normal]. rewrite Eg. split; [reflexivity|]. split.
      * symmetry. apply bool_decide_eq_false. intros [? H]. discriminate H.
      * reflexivity.
    + destruct (update_first (Stylesheet.appendToHead (Stylesheet.cssLink url)) ch)
        as [cc|] eqn:Eu.
      * unfold Stylesheet.getElementById in Eg. simpl in Eg.
        destruct (by_attribute "id" "ps-extension-css" (Element t c a s ch))
          eqn:Esel; [discriminate|].
        destruct (appended_to_head url ch cc Eg Eu) as (ch' & -> & Hf & Ha).
        cbn [cmap state_of is_normal].
        assert (Stylesheet.getElementById "ps-extension-css" (Element t c a s ch') =
                Some (Stylesheet.cssLink url)) as Hfound.
        { unfold Stylesheet.getElementById. cbn [find_first].
          change (by_attribute "id" "ps-extension-css" (Element t c a s ch'))
            with (by_attribute "id" "ps-extension-css" (Element t c a s ch)).
          rewrite Esel. exact Hf. }
        rewrite Hfound. split; [reflexivity|]. split.
        -- symmetry. apply bool_decide_eq_true. eexists; reflexivity.
        -- cbn [find_all].
           change (Notions.css_id (Element t c a s ch'))
             with (by_attribute "id" "ps-extension-css" (Element t c a s ch)).
           rewrite Esel. exact Ha.
      * cbn [state_of is_normal].
        rewrite Eg, (no_head _ (Stylesheet.cssLink url') ch Eu).
        split; [reflexivity|]. split; [|exact Hall].
        symmetry. apply bool_decide_eq_false. intros [? H]. discriminate H.
Qed.

(** *** The markup of the summary block *)

Section SummaryMarkup.
Import Content Notions.

End SummaryMarkup.



(** *** The percentages shown *)

Section Percentages.
Import Content Notions.

Lemma Math_round_percent (q : Q) :
  (0 <= q)%Q -> (q <= 1)%Q ->
  0 <= Math_round (q * 100)%Q /\ Math_round (q * 100)%Q <= 100.
Proof.
  intros H0 H1. split.
  - change 0 with (Math_round (0 * 100)%Q). apply Math_round_mono.
    apply Qmult_le_compat_r; [exact H0 | discriminate].
  - change 100 with (Math_round (1 * 100)%Q) at 2. apply Math_round_mono.
    apply Qmult_le_compat_r; [exact H1 | discriminate].
Qed.

Lemma number_or_zero_unit (x : option Q) :
  (forall q, x = Some q -> (0 <= q)%Q /\ (q <= 1)%Q) ->
  (0 <= number_or_zero x)%Q /\ (number_or_zero x <= 1)%Q.
Proof.
  intros H. unfold number_or_zero. destruct x as [q|].
  - destruct (Qeq_bool q 0); [split; discriminate | apply H; reflexivity].
  - split; discriminate.
Qed.

Lemma record_score_unit (m : gmap string Q) (v : value) :
  probability v -> Notions.unit_scores m -> Notions.unit_scores (record_score m v).
Proof.
  intros (q & Hq & H0 & H1) Hm. unfold record_score.
  destruct (truthy v && truthy (get_label v)); [|exact Hm].
  apply map_Forall_insert_2; [|exact Hm].
  apply number_or_zero_unit. intros q' E. rewrite Hq in E.
  injection E as <-. split; assumption.
Qed.

Lemma scoreMap_unit (items : list value) :
  Forall probability items ->
  forall m, Notions.unit_scores m -> Notions.unit_scores (fold_left record_score items m).
Proof.
  induction 1 as [|v r Hv _ IH]; intros m Hm; [exact Hm|].
  simpl. apply IH, record_score_unit; assumption.
Qed.

Lemma scoreMap_init_unit : Notions.unit_scores scoreMap_init.
Proof.
  unfold scoreMap_init.
  repeat (apply map_Forall_insert_2; [split; discriminate|]).
  apply map_Forall_empty.
Qed.
End Percentages.

(** X17. When every score of the list is a probability (a number from 0 to
    1), every percentage the summary and the tooltip show lies between 0
    and 100: that of each of the three sentiment labels, read from the
    score map, and, the list being non-empty, that of the winning item,
    which is then an item of the list. *)
Theorem percentages_in_range (items : list value) (label : string) :
  items <> [] ->
  Forall Notions.probability items ->
  label ∈ Content.allLabels ->
  (0 <= Content.pct_of (Content.scoreMap_of items) label /\
   Content.pct_of (Content.scoreMap_of items) label <= 100) /\
  exists best q,
    Content.best_of items = Some best /\ best ∈ items /\
    get_score best = Some q /\
    0 <= Math_round (q * 100)%Q /\ Math_round (q * 100)%Q <= 100.
Proof.
  intros Hne Hall _. split.
  - unfold Content.pct_of. apply Math_round_percent;
      apply number_or_zero_unit; intros q Hq;
      apply (scoreMap_unit items Hall _ scoreMap_init_unit label q Hq).
  - assert (Forall (fun v => has_numeric_score v = true) items) as Hnum.
    { eapply Forall_impl; [exact Hall|]. intros v (q & Hq & _).
      unfold has_numeric_score. rewrite Hq. reflexivity. }
    destruct (reduce_higher_first_max items Content.sentinel (-1)%Q eq_refl Hnum)
      as (best & q & Hred & Hq & [[_ Hle] | Hsplit]).
    + destruct items as [|x r]; [contradiction|].
      inversion Hall as [|? ? (p & Hp & H0 & _) _]; subst.
      inversion Hle as [|? ? (p' & Hp' & Hle') _]; subst.
      rewrite Hp in Hp'. injection Hp' as <-.
      exfalso. apply (Qle_not_lt _ _ H0).
      apply Qle_lt_trans with (-1)%Q; [exact Hle' | reflexivity].
    + destruct Hsplit as (before & after & -> & _ & _ & _).
      exists best, q. split; [exact Hred|].
      split; [apply elem_of_app; right; apply elem_of_cons; left; reflexivity|].
      split; [exact Hq|].
      apply Forall_app in Hall as [_ Hall].
      inversion Hall as [|? ? (p & Hp & H0 & H1) _]; subst.
      rewrite Hq in Hp. injection Hp as <-.
      apply Math_round_percent; assumption.
Qed.

Lemma percentages_in_range_witness :
  0 <= Content.pct_of
         (Content.scoreMap_of
            [Examples.item "positive" (95 # 100); Examples.item "neutral" (5 # 100)])
         "neutral" <= 100.
Proof.
  apply (percentages_in_range
           [Examples.item "positive" (95 # 100); Examples.item "neutral" (5 # 100)]
           "neutral").
  - discriminate.
  - repeat constructor;
      (eexists; split; [reflexivity | split; discriminate]).
  - decided.
Defined.
